(** * rl/callbacks.py: callback dispatch and the training loggers

    A shallow embedding of [src/rl/callbacks.py].

    - Python objects whose attributes are probed with [getattr] are finite
      maps from attribute names to attributes.
    - The dictionaries of [TrainEpisodeLogger] are [gmap]s keyed by the
      episode number.
    - Python floats are IEEE binary64 values ([PrimFloat.float]); the
      program is read as Python 3 reads it ([/] on integers is a float).
    - What numpy's reductions return ([np.sum], [np.min], [np.max], the
      warnings of a sum) is a parameter, the class [np.reductions].
    - A method call is a function from the state before the call to a
      [reply]: the value returned or the exception raised, the state after
      the call, and the lines written to standard output.
    - [timeit.default_timer()] is read at most once per handler; the value
      it returns is the argument [now] of the handler. *)

From Stdlib Require Import ZArith String List Floats DecimalString Lia.
From stdpp Require Import gmap strings list fin_maps.

Local Open Scope Z_scope.

(** ** Python exceptions raised by the code or by the library calls it makes *)

Inductive py_exn : Type :=
  | AttributeError (name : string)
  | TypeError
  | KeyError (key : Z)
  | MissingKey (name : string)   (* [KeyError] for a key that is a string *)
  | IndexError
  | ZeroDivisionError
  | ValueError
  | AssertionError
  | OtherError (msg : string).

(** ** The callback list *)

Module CallbackList.

(** The four events the list dispatches itself.  The handlers of the
    other two events, the beginning and the end of a run, are not defined
    in this class: they are those of Keras' list, which it extends (see
    [on_train_begin] and [on_train_end] below). *)
Inductive event : Type := episode_begin | episode_end | step_begin | step_end.

Definition new_name (ev : event) : string :=
  match ev with
  | episode_begin => "on_episode_begin"
  | episode_end => "on_episode_end"
  | step_begin => "on_step_begin"
  | step_end => "on_step_end"
  end.

Definition legacy_name (ev : event) : string :=
  match ev with
  | episode_begin => "on_epoch_begin"
  | episode_end => "on_epoch_end"
  | step_begin => "on_batch_begin"
  | step_end => "on_batch_end"
  end.

Section Dispatch.
(** [World] is everything a callback can read or change (its own fields,
    the console, the log dictionary, which every callback receives by
    reference); [Logs] is the reference to the log dictionary. *)
Context {World Logs : Type}.

(** A bound method [m(index, logs=logs)]: it returns normally ([None]) or
    raises, and leaves a world behind in both cases. *)
Definition method : Type := Z → Logs → World → option py_exn * World.

Inductive attr : Type :=
  | Data                    (* an attribute that cannot be called *)
  | Method (m : method).

(** A callback object, as far as attribute lookup sees it. *)
Definition callback : Type := gmap string attr.

(** One invocation made by the list: which callback (by position), which
    method name, and the two arguments. *)
Record call : Type := Call {
  callee : nat;
  meth : string;
  arg_index : Z;
  arg_logs : Logs
}.

Record outcome : Type := Outcome {
  result : option py_exn;
  world : World;
  calls : list call
}.

(** [callable(getattr(callback, name, None))] *)
Definition callable (a : option attr) : bool :=
  match a with
  | Some (Method _) => true
  | _ => false
  end.

(** [callback.name(index, logs=logs)] *)
Definition invoke (pos : nat) (cb : callback) (name : string)
    (index : Z) (logs : Logs) (w : World) : outcome :=
  match cb !! name with
  | None => Outcome (Some (AttributeError name)) w []
  | Some Data => Outcome (Some TypeError) w []
  | Some (Method m) =>
      let '(e, w') := m index logs w in
      Outcome e w' [Call pos name index logs]
  end.

(** The loop [for callback in self.callbacks: ...] shared by the four
    handlers; [pos] is the position of the head of [cbs] in the list. *)
Fixpoint dispatch_from (new legacy : string) (pos : nat) (cbs : list callback)
    (index : Z) (logs : Logs) (w : World) : outcome :=
  match cbs with
  | [] => Outcome None w []
  | cb :: rest =>
      let r :=
        if callable (cb !! new)
        then invoke pos cb new index logs w
        else invoke pos cb legacy index logs w in
      match result r with
      | Some _ => r
      | None =>
          let r' := dispatch_from new legacy (S pos) rest index logs (world r) in
          Outcome (result r') (world r') (calls r ++ calls r')
      end
  end.

Record CallbackList : Type := { callbacks : list callback }.

Definition on_episode_begin (self : CallbackList) (episode : Z) (logs : Logs) :=
  dispatch_from "on_episode_begin" "on_epoch_begin" 0 (callbacks self) episode logs.

Definition on_episode_end (self : CallbackList) (episode : Z) (logs : Logs) :=
  dispatch_from "on_episode_end" "on_epoch_end" 0 (callbacks self) episode logs.

Definition on_step_begin (self : CallbackList) (step : Z) (logs : Logs) :=
  dispatch_from "on_step_begin" "on_batch_begin" 0 (callbacks self) step logs.

Definition on_step_end (self : CallbackList) (step : Z) (logs : Logs) :=
  dispatch_from "on_step_end" "on_batch_end" 0 (callbacks self) step logs.

Definition on_event (ev : event) : CallbackList → Z → Logs → World → outcome :=
  match ev with
  | episode_begin => on_episode_begin
  | episode_end => on_episode_end
  | step_begin => on_step_begin
  | step_end => on_step_end
  end.

(** What the specification asks of one callback: the new-convention
    method when the callback exposes it, the legacy one otherwise. *)
Definition chosen (ev : event) (cb : callback) : string :=
  if callable (cb !! new_name ev) then new_name ev else legacy_name ev.

Definition expected_from (ev : event) (pos : nat) (cbs : list callback)
    (index : Z) (logs : Logs) : list call :=
  imap (λ i cb, Call (pos + i) (chosen ev cb) index logs) cbs.

Definition exposes_neither (ev : event) (cb : callback) : Prop :=
  callable (cb !! new_name ev) = false ∧ callable (cb !! legacy_name ev) = false.

(** The exception Python raises when the legacy name is looked up and
    called on a callback that exposes neither method. *)
Definition missing (ev : event) (cb : callback) : py_exn :=
  match cb !! legacy_name ev with
  | None => AttributeError (legacy_name ev)
  | Some _ => TypeError
  end.

End Dispatch.

(** *** The handlers inherited from Keras' list

    [CallbackList] extends Keras' class of the same name and does not
    override [on_train_begin] and [on_train_end].  There the loop is
    [for callback in self.callbacks: callback.on_train_begin(logs)]: one
    method name, the log dictionary as the only argument, no test of what
    the callback exposes. *)
Section Inherited.
Context {World Logs : Type}.

(** How a method answers a call with the log dictionary as its only
    argument. *)
Variable call_with_logs : @method World Logs → Logs → World → option py_exn * World.

(** [callback.name(logs)] *)
Definition invoke_with_logs (cb : @callback World Logs) (name : string)
    (logs : Logs) (w : World) : option py_exn * World :=
  match cb !! name with
  | None => (Some (AttributeError name), w)
  | Some Data => (Some TypeError, w)
  | Some (Method m) => call_with_logs m logs w
  end.

Fixpoint run_dispatch (name : string) (cbs : list (@callback World Logs))
    (logs : Logs) (w : World) : option py_exn * World :=
  match cbs with
  | [] => (None, w)
  | cb :: rest =>
      match invoke_with_logs cb name logs w with
      | (Some e, w') => (Some e, w')
      | (None, w') => run_dispatch name rest logs w'
      end
  end.

Definition on_train_begin (self : @CallbackList World Logs) (logs : Logs) :=
  run_dispatch "on_train_begin" (callbacks self) logs.

Definition on_train_end (self : @CallbackList World Logs) (logs : Logs) :=
  run_dispatch "on_train_end" (callbacks self) logs.

End Inherited.

End CallbackList.

(** ** Method calls on a stateful object

    A call runs on the object's state [S]; it returns a value or raises,
    leaves a state behind (mutations made before an exception persist) and
    may have printed lines. *)

Record reply (S A : Type) : Type := Reply {
  ret : py_exn + A;
  post : S;
  printed : list string
}.
Arguments Reply {S A} _ _ _.
Arguments ret {S A} _.
Arguments post {S A} _.
Arguments printed {S A} _.

Definition py (S A : Type) : Type := S → reply S A.

Definition py_ret {S A} (a : A) : py S A := λ s, Reply (inr a) s [].

Definition py_bind {S A B} (k : A → py S B) (m : py S A) : py S B := λ s,
  let r := m s in
  match ret r with
  | inl e => Reply (inl e) (post r) (printed r)
  | inr a =>
      let r' := k a (post r) in
      Reply (ret r') (post r') (printed r ++ printed r')
  end.

#[export] Instance py_mret {S} : MRet (py S) := @py_ret S.
#[export] Instance py_mbind {S} : MBind (py S) := @py_bind S.

Definition raise {S A} (e : py_exn) : py S A := λ s, Reply (inl e) s [].
Definition read {S A} (f : S → A) : py S A := λ s, Reply (inr (f s)) s [].
Definition write {S} (f : S → S) : py S () := λ s, Reply (inr ()) (f s) [].
Definition print {S} (line : string) : py S () := λ s, Reply (inr ()) s [line].

(** A pure computation that may raise. *)
Definition lift {S A} (x : py_exn + A) : py S A :=
  match x with
  | inl e => raise e
  | inr a => mret a
  end.

(** [d[key]] on a dictionary keyed by integers. *)
Definition getitem {V} (d : gmap Z V) (key : Z) : py_exn + V :=
  match d !! key with
  | Some v => inr v
  | None => inl (KeyError key)
  end.

(** [self.d[key]] *)
Definition item {S V} (d : S → gmap Z V) (key : Z) : py S V :=
  λ s, lift (getitem (d s) key) s.

(** [self.name], for an attribute that may not have been set yet. *)
Definition field {S A} (name : string) (f : S → option A) : py S A := λ s,
  match f s with
  | Some a => Reply (inr a) s []
  | None => Reply (inl (AttributeError name)) s []
  end.

Definition returned {S A} (r : reply S A) : bool :=
  match ret r with
  | inr _ => true
  | inl _ => false
  end.

(** ** Python numbers and [str.format] *)

(** [float(z)] *)
Definition float_of_Z (z : Z) : float :=
  SF2Prim (binary_normalize prec emax z 0 false).

(** [a / b] on Python floats. *)
Definition truediv (a b : float) : py_exn + float :=
  if PrimFloat.eqb b 0%float then inl ZeroDivisionError else inr (PrimFloat.div a b).

Module fmt.

(** ['{}'.format(z)] for an integer. *)
Definition int (z : Z) : string := NilZero.string_of_int (Z.to_int z).

(** The nearest integer to [num / den] ([den > 0]), ties to even. *)
Definition round_half_even (num den : Z) : Z :=
  let q := num / den in
  let r := num mod den in
  if 2 * r <? den then q
  else if den <? 2 * r then q + 1
  else if Z.even q then q else q + 1.

(** [n] written with exactly [d] digits ([0 <= n < 10^d]). *)
Definition digits (d : nat) (n : Z) : string :=
  match int (10 ^ Z.of_nat d + n) with
  | String _ s => s
  | EmptyString => EmptyString
  end.

(** [n / 10^d] in fixed notation with [d] decimals ([n >= 0]). *)
Definition fixed (d : nat) (n : Z) : string :=
  let p := 10 ^ Z.of_nat d in
  match d with
  | O => int n
  | _ => int (n / p) +:+ "." +:+ digits d (n mod p)
  end.

Definition sign (s : bool) : string := if s then "-" else "".

(** ['{:.df}'.format(x)] for a float: the exact value of [x], rounded to
    [d] decimals, ties to even. *)
Definition f (d : nat) (x : float) : string :=
  match Prim2SF x with
  | S754_nan => "nan"
  | S754_infinity s => sign s +:+ "inf"
  | S754_zero s => sign s +:+ fixed d 0
  | S754_finite s m e =>
      let p := 10 ^ Z.of_nat d in
      let n :=
        if 0 <=? e then Z.pos m * 2 ^ e * p
        else round_half_even (Z.pos m * p) (2 ^ (- e)) in
      sign s +:+ fixed d n
  end.

End fmt.

(** ** The numpy calls the loggers make

    Values are float64.  What numpy's floating-point reductions return is
    numpy's business: the order in which [np.sum] adds, the zero that
    [np.min] and [np.max] pick among zeros of both signs, and whether a sum
    sets a floating-point status flag are not fixed here but taken as the
    methods of the class [reductions].  Everything else (shapes, columns,
    the elements a reduction runs over, the exceptions, the arithmetic
    around the reductions) is written out. *)

Module np.

Definition isnan (x : float) : bool := negb (PrimFloat.eqb x x).

Definition count (l : list float) : float := float_of_Z (Z.of_nat (length l)).

Class reductions : Type := Reductions {
  (** [np.sum] of a flat sequence. *)
  sum : list float → float;
  (** Whether adding up the sequence makes numpy emit a [RuntimeWarning]
      about the floating-point status (overflow, invalid value). *)
  sum_warns : list float → bool;
  (** [np.min] and [np.max] of a flat sequence that is not empty. *)
  amin : list float → float;
  amax : list float → float
}.

Section Calls.
Context `{N : reductions}.

(** [np.mean] of a flat sequence: the sum divided by the number of
    elements; [nan] for an empty one. *)
Definition mean (l : list float) : float := PrimFloat.div (sum l) (count l).

(** [np.min] and [np.max] refuse an empty array. *)
Definition min (l : list float) : py_exn + float :=
  match l with
  | [] => inl ValueError
  | _ => inr (amin l)
  end.

Definition max (l : list float) : py_exn + float :=
  match l with
  | [] => inl ValueError
  | _ => inr (amax l)
  end.

(** [np.concatenate(arrays)] of one-dimensional arrays. *)
Definition concatenate (arrays : list (list float)) : py_exn + list float :=
  match arrays with
  | [] => inl ValueError
  | _ => inr (concat arrays)
  end.

(** The shape of [np.array(rows)] when it is two-dimensional: at least one
    row, all rows of one width. *)
Definition shape2 (rows : list (list float)) : option (nat * nat) :=
  match rows with
  | [] => None
  | r :: rest =>
      if forallb (λ r', Nat.eqb (length r') (length r)) rest
      then Some (length rows, length r)
      else None
  end.

(** [np.array(rows)[:, idx]] *)
Definition column (idx : nat) (rows : list (list float)) : py_exn + list float :=
  match shape2 rows with
  | Some (_, width) =>
      if Nat.ltb idx width
      then inr (map (λ r, nth idx r nan) rows)
      else inl IndexError
  | None => inl IndexError
  end.

(** All the elements of [np.array(rows)], for the reductions over a whole
    array. *)
Definition ravel (rows : list (list float)) : py_exn + list float :=
  match rows with
  | [] => inr []
  | _ =>
      match shape2 rows with
      | Some _ => inr (concat rows)
      | None => inl ValueError
      end
  end.

Definition is_posinf (x : float) : bool := PrimFloat.eqb x infinity.
Definition is_neginf (x : float) : bool := PrimFloat.eqb x neg_infinity.

(** [np.nanmean] of a one-dimensional array: the NaNs are replaced by 0,
    the array is summed and the sum divided by the number of elements that
    are not NaN.  The flag says that numpy emitted a warning: "Mean of
    empty slice" when no element is left, and the warning of the sum,
    which is certain ("invalid value") when the array holds both
    infinities, whatever the order of the additions. *)
Definition nanmean (l : list float) : float * bool :=
  let kept := filter (λ x, isnan x = false) l in
  let arr := map (λ x, if isnan x then 0%float else x) l in
  (PrimFloat.div (sum arr) (count kept),
   Nat.eqb (length kept) 0
   || (existsb is_posinf arr && existsb is_neginf arr)
   || sum_warns arr).

(** [np.nanmean(rows, axis=0)]: one mean per column. *)
Definition nanmean_axis0 (rows : list (list float)) : py_exn + list float :=
  match shape2 rows with
  | Some (_, width) =>
      inr (map (λ idx, (nanmean (map (λ r, nth idx r nan) rows)).1) (seq 0 width))
  | None => inl ValueError
  end.

End Calls.

End np.

(** ** One implementation of the reductions

    The sample runs are evaluated with it.  It adds from left to right,
    keeps the earlier of two equal values as the minimum or the maximum,
    and reports an overflow when a sum of finite values is not finite.
    The sample values are small whole numbers and their quotients, on
    which every order of addition gives the same sum. *)

Module np_sample.

Definition sum (l : list float) : float :=
  match l with
  | [] => 0%float
  | x :: rest => fold_left PrimFloat.add rest x
  end.

Definition sum_warns (l : list float) : bool :=
  forallb PrimFloat.is_finite l && negb (PrimFloat.is_finite (sum l)).

Definition minimum (a b : float) : float :=
  if np.isnan a then a else if np.isnan b then b
  else if PrimFloat.ltb b a then b else a.

Definition maximum (a b : float) : float :=
  if np.isnan a then a else if np.isnan b then b
  else if PrimFloat.ltb a b then b else a.

Definition amin (l : list float) : float :=
  match l with
  | [] => nan
  | x :: rest => fold_left minimum rest x
  end.

Definition amax (l : list float) : float :=
  match l with
  | [] => nan
  | x :: rest => fold_left maximum rest x
  end.

Definition numpy : np.reductions := np.Reductions sum sum_warns amin amax.

End np_sample.

(** ** The log dictionary of a step-end event

    The keys the loggers read: [logs['episode']], [logs['observation']] (a
    sequence of one-dimensional arrays), [logs['reward']], [logs['action']]
    (a scalar) and [logs['metrics']].  A [step_logs] is a dictionary that
    carries the five keys, as the training loop builds it.  A [log_dict]
    is any dictionary: a key it lacks makes the expression that reads it
    raise [KeyError]. *)

Record step_logs : Type := StepLogs {
  log_episode : Z;
  log_observation : list (list float);
  log_reward : float;
  log_action : float;
  log_metrics : list float
}.

Record log_dict : Type := LogDict {
  dict_episode : option Z;
  dict_observation : option (list (list float));
  dict_reward : option float;
  dict_action : option float;
  dict_metrics : option (list float)
}.

(** The dictionary that holds the five values of a [step_logs]. *)
Definition as_dict (logs : step_logs) : log_dict :=
  LogDict (Some (log_episode logs)) (Some (log_observation logs))
          (Some (log_reward logs)) (Some (log_action logs)) (Some (log_metrics logs)).

(** [logs[name]] *)
Definition getkey {A} (name : string) (x : option A) : py_exn + A :=
  match x with
  | Some a => inr a
  | None => inl (MissingKey name)
  end.

(** The message of [on_train_begin], which both training loggers print. *)
Definition training_message (nb_episodes nb_steps : option Z) : string :=
  match nb_episodes, nb_steps with
  | None, None =>
      "Training indefinitely since `nb_steps` and `nb_episodes` are both `None` ..."
  | None, Some n => "Training for " +:+ fmt.int n +:+ " steps ..."
  | Some e, None => "Training for " +:+ fmt.int e +:+ " episodes ..."
  | Some e, Some n =>
      "Training for " +:+ fmt.int e +:+ " episodes or " +:+ fmt.int n
      +:+ " steps, whichever comes first ..."
  end.

(** ** The per-episode logger *)

Module TrainEpisodeLogger.

Section Logger.
Context `{N : np.reductions}.

(** The fields of the object.  [train_start] and [metrics_names] do not
    exist before [on_train_begin]. *)
Record state : Type := State {
  train_start : option float;
  metrics_names : option (list string);
  episode_start : gmap Z float;
  observations : gmap Z (list (list float));
  rewards : gmap Z (list float);
  actions : gmap Z (list float);
  metrics : gmap Z (list (list float))
}.

Definition set_episode_start (f : gmap Z float → gmap Z float) (s : state) : state :=
  State (train_start s) (metrics_names s) (f (episode_start s)) (observations s)
        (rewards s) (actions s) (metrics s).

Definition set_observations
    (f : gmap Z (list (list float)) → gmap Z (list (list float))) (s : state) : state :=
  State (train_start s) (metrics_names s) (episode_start s) (f (observations s))
        (rewards s) (actions s) (metrics s).

Definition set_rewards (f : gmap Z (list float) → gmap Z (list float)) (s : state) : state :=
  State (train_start s) (metrics_names s) (episode_start s) (observations s)
        (f (rewards s)) (actions s) (metrics s).

Definition set_actions (f : gmap Z (list float) → gmap Z (list float)) (s : state) : state :=
  State (train_start s) (metrics_names s) (episode_start s) (observations s)
        (rewards s) (f (actions s)) (metrics s).

Definition set_metrics
    (f : gmap Z (list (list float)) → gmap Z (list (list float))) (s : state) : state :=
  State (train_start s) (metrics_names s) (episode_start s) (observations s)
        (rewards s) (actions s) (f (metrics s)).

(** [__init__] *)
Definition init : state := State None None ∅ ∅ ∅ ∅ ∅.

(** [self.metrics_names] *)
Definition get_metrics_names : py state (list string) :=
  field "metrics_names" metrics_names.

(** [on_train_begin]; [model_metrics_names] is [self.model.metrics_names],
    the two counts are [self.params['nb_episodes']] and
    [self.params['nb_steps']]. *)
Definition on_train_begin (now : float) (model_metrics_names : list string)
    (nb_episodes nb_steps : option Z) : py state () :=
  write (λ s, State (Some now) (Some model_metrics_names) (episode_start s)
                (observations s) (rewards s) (actions s) (metrics s));;
  print (training_message nb_episodes nb_steps).

Definition on_train_end (now : float) : py state () :=
  start ← field "train_start" train_start;
  print ("done, took " +:+ fmt.f 3 (PrimFloat.sub now start) +:+ " seconds").

Definition on_episode_begin (now : float) (episode : Z) : py state () :=
  write (set_episode_start <[episode := now]>);;
  write (set_observations <[episode := []]>);;
  write (set_rewards <[episode := []]>);;
  write (set_actions <[episode := []]>);;
  write (set_metrics <[episode := []]>).

(** One metric of the summary: its name and either the mean of its column
    or the placeholder. *)
Definition format_metric (name : string) (mean : float * bool) : string :=
  if mean.2
  then name +:+ ": " +:+ "--"
  else name +:+ ": " +:+ fmt.f 6 mean.1.

(** The loop over [enumerate(self.metrics_names)], from index [idx] on. *)
Fixpoint format_metrics_from (idx : nat) (names : list string)
    (rows : list (list float)) : py_exn + list string :=
  match names with
  | [] => inr []
  | name :: rest =>
      match np.column idx rows with
      | inl e => inl e
      | inr col =>
          match format_metrics_from (S idx) rest rows with
          | inl e => inl e
          | inr texts => inr (format_metric name (np.nanmean col) :: texts)
          end
      end
  end.

(** The pieces are separated by [', ']. *)
Fixpoint join (texts : list string) : string :=
  match texts with
  | [] => ""
  | [t] => t
  | t :: rest => t +:+ ", " +:+ join rest
  end.

Definition format_metrics (names : list string) (rows : list (list float))
    : py_exn + string :=
  match format_metrics_from 0 names rows with
  | inl e => inl e
  | inr texts => inr (join texts)
  end.

(** The dictionary [variables]. *)
Record variables : Type := Variables {
  v_episode : Z;
  v_duration : float;
  v_steps : nat;
  v_sps : float;
  v_episode_reward : float;
  v_reward : float;
  v_reward_min : float;
  v_reward_max : float;
  v_action : float;
  v_action_min : float;
  v_action_max : float;
  v_obs : float;
  v_obs_min : float;
  v_obs_max : float;
  v_metrics : string
}.

(** The summary line: [template] filled in with [variables]. *)
Definition template_format (v : variables) : string :=
  "Episode " +:+ fmt.int (v_episode v)
  +:+ ": " +:+ fmt.f 3 (v_duration v)
  +:+ "s, steps: " +:+ fmt.int (Z.of_nat (v_steps v))
  +:+ ", steps per second: " +:+ fmt.f 0 (v_sps v)
  +:+ ", episode reward: " +:+ fmt.f 3 (v_episode_reward v)
  +:+ ", reward: " +:+ fmt.f 3 (v_reward v)
  +:+ " [" +:+ fmt.f 3 (v_reward_min v)
  +:+ ", " +:+ fmt.f 3 (v_reward_max v)
  +:+ "], action: " +:+ fmt.f 3 (v_action v)
  +:+ " [" +:+ fmt.f 3 (v_action_min v)
  +:+ ", " +:+ fmt.f 3 (v_action_max v)
  +:+ "], observations: " +:+ fmt.f 3 (v_obs v)
  +:+ " [" +:+ fmt.f 3 (v_obs_min v)
  +:+ ", " +:+ fmt.f 3 (v_obs_max v)
  +:+ "], " +:+ v_metrics v.

(** [del d[key]] *)
Definition delitem {V} (d : state → gmap Z V)
    (set : (gmap Z V → gmap Z V) → state → state) (key : Z) : py state () :=
  _ ← item d key;
  write (set (delete key)).

(** Lines 109-148: everything [on_episode_end] computes before it frees the
    buffers; the value is the line it prints.  The reads come in the order
    in which Python evaluates them; an entry that is read several times in
    a row ([self.rewards[episode]] for the sum, the mean, the minimum and
    the maximum) is read once. *)
Definition summary (now : float) (episode : Z) : py state string :=
  start ← item episode_start episode;
  let duration := PrimFloat.sub now start in
  obs ← item observations episode;
  let steps := length obs in
  rows ← item metrics episode;
  names ← get_metrics_names;
  metrics_text ← lift (format_metrics names rows);
  sps ← lift (truediv (float_of_Z (Z.of_nat steps)) duration);
  rs ← item rewards episode;
  reward_min ← lift (np.min rs);
  reward_max ← lift (np.max rs);
  acts ← item actions episode;
  action_min ← lift (np.min acts);
  action_max ← lift (np.max acts);
  obs' ← item observations episode;
  flat ← lift (np.ravel obs');
  obs_min ← lift (np.min flat);
  obs_max ← lift (np.max flat);
  mret (template_format
          (Variables (episode + 1) duration steps sps
             (np.sum rs) (np.mean rs) reward_min reward_max
             (np.mean acts) action_min action_max
             (np.mean flat) obs_min obs_max
             metrics_text)).

Definition on_episode_end (now : float) (episode : Z) : py state () :=
  line ← summary now episode;
  print line;;
  delitem episode_start set_episode_start episode;;
  delitem observations set_observations episode;;
  delitem rewards set_rewards episode;;
  delitem actions set_actions episode;;
  delitem metrics set_metrics episode.

Definition on_step_end (logs : step_logs) : py state () :=
  let episode := log_episode logs in
  obs ← item observations episode;
  flat ← lift (np.concatenate (log_observation logs));
  write (set_observations <[episode := obs ++ [flat]]>);;
  rs ← item rewards episode;
  write (set_rewards <[episode := rs ++ [log_reward logs]]>);;
  acts ← item actions episode;
  write (set_actions <[episode := acts ++ [log_action logs]]>);;
  rows ← item metrics episode;
  write (set_metrics <[episode := rows ++ [log_metrics logs]]>).

(** [on_step_end] on any dictionary, key by key in the order in which
    Python evaluates the four statements: the entry of the episode is
    looked up before the argument of [append] is read.  On a dictionary
    that carries the five keys this is [on_step_end] above. *)
Definition on_step_end_dict (logs : log_dict) : py state () :=
  episode ← lift (getkey "episode" (dict_episode logs));
  obs ← item observations episode;
  arrays ← lift (getkey "observation" (dict_observation logs));
  flat ← lift (np.concatenate arrays);
  write (set_observations <[episode := obs ++ [flat]]>);;
  rs ← item rewards episode;
  reward ← lift (getkey "reward" (dict_reward logs));
  write (set_rewards <[episode := rs ++ [reward]]>);;
  acts ← item actions episode;
  action ← lift (getkey "action" (dict_action logs));
  write (set_actions <[episode := acts ++ [action]]>);;
  rows ← item metrics episode;
  vector ← lift (getkey "metrics" (dict_metrics logs));
  write (set_metrics <[episode := rows ++ [vector]]>).

(** ** Runs of the logger

    The calls the training loop makes, with the timer value of the calls
    that read the timer. *)
Inductive event : Type :=
  | EpisodeBegin (now : float) (episode : Z)
  | StepEnd (logs : step_logs)
  | EpisodeEnd (now : float) (episode : Z).

Definition event_episode (ev : event) : Z :=
  match ev with
  | EpisodeBegin _ e => e
  | StepEnd logs => log_episode logs
  | EpisodeEnd _ e => e
  end.

Definition handle (ev : event) : py state () :=
  match ev with
  | EpisodeBegin now e => on_episode_begin now e
  | StepEnd logs => on_step_end logs
  | EpisodeEnd now e => on_episode_end now e
  end.

(** What the caller of one handler observes: the episode the call was
    about, the exception if one was raised, and the lines printed. *)
Record observed : Type := Observed {
  about : Z;
  raised : option py_exn;
  lines : list string
}.

Definition observe (ev : event) (r : reply state ()) : observed :=
  Observed (event_episode ev)
           (match ret r with inl e => Some e | inr _ => None end)
           (printed r).

(** The calls of [evs] in turn, each on the state the previous one left,
    whether it returned or raised. *)
Fixpoint run (evs : list event) (s : state) : list observed * state :=
  match evs with
  | [] => ([], s)
  | ev :: rest =>
      let r := handle ev s in
      let '(obs, s') := run rest (post r) in
      (observe ev r :: obs, s')
  end.

(** The buffers of one episode. *)
Record buffers : Type := Buffers {
  b_start : option float;
  b_observations : option (list (list float));
  b_rewards : option (list float);
  b_actions : option (list float);
  b_metrics : option (list (list float))
}.

Definition view (episode : Z) (s : state) : buffers :=
  Buffers (episode_start s !! episode) (observations s !! episode)
          (rewards s !! episode) (actions s !! episode) (metrics s !! episode).

Definition absent (episode : Z) (s : state) : Prop :=
  view episode s = Buffers None None None None None.

(** The summary as a function of the buffers of the episode and of the
    metric names: the reads of [summary], in the same order, on a [view]. *)
Definition need {A} (episode : Z) (x : option A) : py_exn + A :=
  match x with
  | Some a => inr a
  | None => inl (KeyError episode)
  end.

Definition and_then {A B} (x : py_exn + A) (k : A → py_exn + B) : py_exn + B :=
  match x with
  | inl e => inl e
  | inr a => k a
  end.

Definition summary_of (names : option (list string)) (now : float) (episode : Z)
    (b : buffers) : py_exn + string :=
  and_then (need episode (b_start b)) (λ start,
  let duration := PrimFloat.sub now start in
  and_then (need episode (b_observations b)) (λ obs,
  let steps := length obs in
  and_then (need episode (b_metrics b)) (λ rows,
  and_then (match names with
            | Some ns => inr ns
            | None => inl (AttributeError "metrics_names")
            end) (λ ns,
  and_then (format_metrics ns rows) (λ metrics_text,
  and_then (truediv (float_of_Z (Z.of_nat steps)) duration) (λ sps,
  and_then (need episode (b_rewards b)) (λ rs,
  and_then (np.min rs) (λ reward_min,
  and_then (np.max rs) (λ reward_max,
  and_then (need episode (b_actions b)) (λ acts,
  and_then (np.min acts) (λ action_min,
  and_then (np.max acts) (λ action_max,
  and_then (np.ravel obs) (λ flat,
  and_then (np.min flat) (λ obs_min,
  and_then (np.max flat) (λ obs_max,
  inr (template_format
         (Variables (episode + 1) duration steps sps
            (np.sum rs) (np.mean rs) reward_min reward_max
            (np.mean acts) action_min action_max
            (np.mean flat) obs_min obs_max
            metrics_text))))))))))))))))).

(** The state with the five entries of [episode] deleted. *)
Definition purge (episode : Z) (s : state) : state :=
  State (train_start s) (metrics_names s)
        (delete episode (episode_start s)) (delete episode (observations s))
        (delete episode (rewards s)) (delete episode (actions s))
        (delete episode (metrics s)).

Definition present (episode : Z) (s : state) : Prop :=
  is_Some (episode_start s !! episode) ∧ is_Some (observations s !! episode) ∧
  is_Some (rewards s !! episode) ∧ is_Some (actions s !! episode) ∧
  is_Some (metrics s !! episode).

(** [l] is a merge of [l1] and [l2] that keeps the order of each. *)
Inductive interleaving {A : Type} : list A → list A → list A → Prop :=
  | interleaving_nil : interleaving [] [] []
  | interleaving_left x l1 l2 l :
      interleaving l1 l2 l → interleaving (x :: l1) l2 (x :: l)
  | interleaving_right x l1 l2 l :
      interleaving l1 l2 l → interleaving l1 (x :: l2) (x :: l).

(** Whether an episode is open after the calls [evs]: its last
    episode-begin or episode-end call, if any, is an episode-begin. *)
Fixpoint open_from (b : bool) (episode : Z) (evs : list event) : bool :=
  match evs with
  | [] => b
  | EpisodeBegin _ e :: rest =>
      open_from (if decide (e = episode) then true else b) episode rest
  | EpisodeEnd _ e :: rest =>
      open_from (if decide (e = episode) then false else b) episode rest
  | StepEnd _ :: rest => open_from b episode rest
  end.

Definition open_after (episode : Z) (evs : list event) : bool :=
  open_from false episode evs.

(** Whether an episode is live after the calls [evs], of which [obs] are
    the outcomes: its last episode-begin or episode-end that returned, if
    any, is an episode-begin.  An episode-end that raised counts for
    nothing. *)
Fixpoint live_from (b : bool) (episode : Z) (evs : list event) (obs : list observed)
    : bool :=
  match evs, obs with
  | EpisodeBegin _ e :: evs', _ :: obs' =>
      live_from (if decide (e = episode) then true else b) episode evs' obs'
  | EpisodeEnd _ e :: evs', o :: obs' =>
      live_from (if decide (e = episode)
                 then match raised o with Some _ => b | None => false end
                 else b) episode evs' obs'
  | StepEnd _ :: evs', _ :: obs' => live_from b episode evs' obs'
  | _, _ => b
  end.

Definition live_after (episode : Z) (evs : list event) (obs : list observed) : bool :=
  live_from false episode evs obs.

(** The calls of one episode: its begin, its steps, its end. *)
Definition episode_calls (episode : Z) (t0 t1 : float) (steps : list step_logs)
    : list event :=
  EpisodeBegin t0 episode :: map StepEnd steps ++ [EpisodeEnd t1 episode].

(** A logger that was constructed and, possibly, told that training
    begins. *)
Definition started (s : state) : Prop :=
  s = init ∨
  ∃ now names nb_episodes nb_steps,
    s = post (on_train_begin now names nb_episodes nb_steps init).

(** The buffers of an episode begun at time [t0] once the step-ends
    [steps] are recorded. *)
Definition recorded_buffers (t0 : float) (steps : list step_logs) : buffers :=
  Buffers (Some t0)
          (Some (map (λ l, concat (log_observation l)) steps))
          (Some (map log_reward steps))
          (Some (map log_action steps))
          (Some (map log_metrics steps)).

(** Steps a summary can be computed from: at least one step, every step
    with at least one observation array, metric vectors of one width that
    covers the metric names, flattened observations of one positive
    length. *)
Definition well_formed (names : list string) (steps : list step_logs) : Prop :=
  Forall (λ l, log_observation l ≠ []) steps ∧
  (∃ n w, np.shape2 (map log_metrics steps) = Some (n, w) ∧ (length names ≤ w)%nat) ∧
  (∃ n w, np.shape2 (map (λ l, concat (log_observation l)) steps) = Some (n, w) ∧
          (0 < w)%nat).

End Logger.

End TrainEpisodeLogger.

(** ** The interval logger *)

(** [a % b] on Python integers. *)
Definition py_mod (a b : Z) : py_exn + Z :=
  if b =? 0 then inl ZeroDivisionError else inr (a mod b).

Module TrainIntervalLogger.

Section Logger.
Context `{N : np.reductions}.

(** Keras' progress bar, as far as the logger drives it: the target it was
    made with and the [update(current, values=values)] calls it received.
    The bar is one with a positive target, which takes every update; what
    Keras' bar does with another target is not described. *)
Record Progbar : Type := MkProgbar {
  target : Z;
  updates : list (Z * list (string * float))
}.

Definition new_progbar (target : Z) : Progbar := MkProgbar target [].

Definition update (current : Z) (values : list (string * float)) (p : Progbar) : Progbar :=
  MkProgbar (target p) (updates p ++ [(current, values)]).

Record state : Type := State {
  interval : Z;
  steps : Z;
  interval_start : float;
  progbar : Progbar;
  metrics : list (list float);
  train_start : option float;
  metrics_names : option (list string)
}.

Definition reset (now : float) : py state () :=
  write (λ s, State (interval s) (steps s) now (new_progbar (interval s)) []
                (train_start s) (metrics_names s)).

(** [__init__(interval)]: the fields set before [self.reset()], then the
    reset. *)
Definition init (now : float) (interval : Z) : state :=
  post (reset now (State interval 0 0%float (new_progbar 0) [] None None)).

Definition get_metrics_names : py state (list string) :=
  field "metrics_names" metrics_names.

Definition on_train_begin (now : float) (model_metrics_names : list string)
    (nb_episodes nb_steps : option Z) : py state () :=
  write (λ s, State (interval s) (steps s) (interval_start s) (progbar s) (metrics s)
                (Some now) (Some model_metrics_names));;
  print (training_message nb_episodes nb_steps).

Definition on_train_end (now : float) : py state () :=
  start ← field "train_start" train_start;
  print ("done, took " +:+ fmt.f 3 (PrimFloat.sub now start) +:+ " seconds").

(** The line printed when a window starts.  [self.steps / self.interval]
    is a float, and so is the interval number; the line is printed when
    the division is exact, and a float that is a whole number is written
    as that number followed by [.0] (as long as the number is below 2^53
    in magnitude, which the float is then exactly). *)
Definition interval_marker (steps interval : Z) : string :=
  "Interval " +:+ fmt.int (steps / interval + 1) +:+ ".0"
  +:+ " (" +:+ fmt.int steps +:+ " steps performed)".

Definition on_step_begin (now : float) : py state () :=
  s ← read id;
  r ← lift (py_mod (steps s) (interval s));
  if r =? 0
  then reset now;; print (interval_marker (steps s) (interval s))
  else mret ().

(** [means = np.nanmean(self.metrics, axis=0)] with its assertion, computed
    the first time a NaN is met and kept for the rest of the loop. *)
Definition column_means (buffer : list (list float)) (names : option (list string))
    (means : option (list float)) : py_exn + list float :=
  match means with
  | Some ms => inr ms
  | None =>
      match np.nanmean_axis0 buffer with
      | inl e => inl e
      | inr ms =>
          match names with
          | None => inl (AttributeError "metrics_names")
          | Some ns =>
              if Nat.eqb (length ms) (length ns) then inr ms else inl AssertionError
          end
      end
  end.

(** The loop over [enumerate(logs['metrics'])], from index [idx] on;
    [buffer] is [self.metrics] and [names] is [self.metrics_names], neither
    of which the loop changes. *)
Fixpoint filter_metrics (buffer : list (list float)) (names : option (list string))
    (idx : nat) (values : list float) (means : option (list float))
    : py_exn + list float :=
  match values with
  | [] => inr []
  | value :: rest =>
      if negb (np.isnan value) then
        match filter_metrics buffer names (S idx) rest means with
        | inl e => inl e
        | inr filtered => inr (value :: filtered)
        end
      else if Nat.ltb 0 (length buffer) then
        match column_means buffer names means with
        | inl e => inl e
        | inr ms =>
            match ms !! idx with
            | None => inl IndexError
            | Some mean =>
                match filter_metrics buffer names (S idx) rest (Some ms) with
                | inl e => inl e
                | inr filtered => inr (mean :: filtered)
                end
            end
        end
      else
        match filter_metrics buffer names (S idx) rest means with
        | inl e => inl e
        | inr filtered => inr (nan :: filtered)
        end
  end.

Definition on_step_end (logs : step_logs) : py state () :=
  s ← read id;
  filtered ← lift (filter_metrics (metrics s) (metrics_names s) 0 (log_metrics logs) None);
  named ← (if existsb np.isnan filtered
           then mret []
           else names ← get_metrics_names; mret (zip names filtered));
  let values := ("reward", log_reward logs) :: named in
  r ← lift (py_mod (steps s) (interval s));
  write (λ s, State (interval s) (steps s) (interval_start s)
                (update (r + 1) values (progbar s)) (metrics s)
                (train_start s) (metrics_names s));;
  write (λ s, State (interval s) (steps s + 1) (interval_start s) (progbar s)
                (metrics s) (train_start s) (metrics_names s));;
  write (λ s, State (interval s) (steps s) (interval_start s) (progbar s)
                (metrics s ++ [log_metrics logs]) (train_start s) (metrics_names s)).

(** The value the specification substitutes for a NaN metric: the mean of
    the column over the vectors buffered so far, NaNs left out, or NaN when
    nothing is buffered. *)
Definition running_mean (buffer : list (list float)) (idx : nat) : float :=
  match buffer with
  | [] => nan
  | _ => (np.nanmean (map (λ r, nth idx r nan) buffer)).1
  end.

(** The state [reset] leaves. *)
Definition fresh_window (now : float) (s : state) : state :=
  State (interval s) (steps s) now (new_progbar (interval s)) []
        (train_start s) (metrics_names s).

End Logger.

End TrainIntervalLogger.

(** ** Sample objects and runs *)

Module demo.

#[local] Existing Instance np_sample.numpy.

(** Callbacks that write their name in a journal. *)
Definition note (what : string) : @CallbackList.method (list string) () :=
  λ _ _ w, (None, w ++ [what]).

(** A plain Keras callback: epoch and batch methods only. *)
Definition keras_only : @CallbackList.callback (list string) () :=
  <["on_epoch_begin" := CallbackList.Method (note "keras: epoch begin")]>
  (<["on_epoch_end" := CallbackList.Method (note "keras: epoch end")]>
  (<["on_batch_begin" := CallbackList.Method (note "keras: batch begin")]>
  (<["on_batch_end" := CallbackList.Method (note "keras: batch end")]> ∅))).

(** A callback of this library: the episode and step methods, and the
    Keras ones it inherits. *)
Definition rl_style : @CallbackList.callback (list string) () :=
  <["on_episode_begin" := CallbackList.Method (note "rl: episode begin")]>
  (<["on_episode_end" := CallbackList.Method (note "rl: episode end")]>
  (<["on_step_begin" := CallbackList.Method (note "rl: step begin")]>
  (<["on_step_end" := CallbackList.Method (note "rl: step end")]> keras_only))).

(** An object with none of the methods. *)
Definition bare : @CallbackList.callback (list string) () :=
  <["validation_data" := CallbackList.Data]> ∅.

Definition mixed : @CallbackList.CallbackList (list string) () :=
  {| CallbackList.callbacks := [keras_only; rl_style] |}.

Definition broken : @CallbackList.CallbackList (list string) () :=
  {| CallbackList.callbacks := [keras_only; bare; rl_style] |}.

(** A per-episode logger after [on_train_begin], with two metrics. *)
Definition trained : TrainEpisodeLogger.state :=
  post (TrainEpisodeLogger.on_train_begin 0%float ["loss"; "mae"] None (Some 100)
          TrainEpisodeLogger.init).

Definition step (episode : Z) (reward action loss mae : float) : step_logs :=
  StepLogs episode [[1%float; 2%float]; [3%float]] reward action [loss; mae].

(** Three steps of episode 4, with rewards 1.0, 2.0 and 3.0 and a first
    metric that is never a number. *)
Definition three_steps : list step_logs :=
  [step 4 1%float 0%float nan 1%float;
   step 4 2%float 1%float nan 2%float;
   step 4 3%float 1%float nan 4%float].

(** Episode 4 begun at time 10.0, with its three steps recorded. *)
Definition recorded : TrainEpisodeLogger.state :=
  (TrainEpisodeLogger.run
     (TrainEpisodeLogger.EpisodeBegin 10%float 4
      :: map TrainEpisodeLogger.StepEnd three_steps) trained).2.

(** The calls of episode 0 and of episode 1, and one way to merge them. *)
Definition calls0 : list TrainEpisodeLogger.event :=
  [TrainEpisodeLogger.EpisodeBegin 10%float 0;
   TrainEpisodeLogger.StepEnd (step 0 1%float 0%float 3%float 1%float);
   TrainEpisodeLogger.StepEnd (step 0 2%float 1%float nan 2%float);
   TrainEpisodeLogger.EpisodeEnd 12%float 0].

Definition calls1 : list TrainEpisodeLogger.event :=
  [TrainEpisodeLogger.EpisodeBegin 11%float 1;
   TrainEpisodeLogger.StepEnd (step 1 5%float 1%float 7%float nan);
   TrainEpisodeLogger.EpisodeEnd 15%float 1].

Definition merged : list TrainEpisodeLogger.event :=
  [TrainEpisodeLogger.EpisodeBegin 10%float 0;
   TrainEpisodeLogger.EpisodeBegin 11%float 1;
   TrainEpisodeLogger.StepEnd (step 0 1%float 0%float 3%float 1%float);
   TrainEpisodeLogger.StepEnd (step 1 5%float 1%float 7%float nan);
   TrainEpisodeLogger.StepEnd (step 0 2%float 1%float nan 2%float);
   TrainEpisodeLogger.EpisodeEnd 12%float 0;
   TrainEpisodeLogger.EpisodeEnd 15%float 1].

(** An interval logger with a window of 10 after [on_train_begin]. *)
Definition window10 : TrainIntervalLogger.state :=
  post (TrainIntervalLogger.on_train_begin 0%float ["loss"; "mae"] None (Some 100)
          (TrainIntervalLogger.init 0%float 10)).

(** [n] steps of the training loop: a step-begin and a step-end each. *)
Fixpoint after_steps (n : nat) (s : TrainIntervalLogger.state)
    : TrainIntervalLogger.state :=
  match n with
  | O => s
  | S n' =>
      let s' := after_steps n' s in
      post (TrainIntervalLogger.on_step_end (step 0 1%float 0%float 1%float nan)
              (post (TrainIntervalLogger.on_step_begin 1%float s')))
  end.

End demo.

(** ** The base class [Callback]

    Its four methods do nothing.  [attributes inherited] is what attribute
    lookup finds on an instance: the four methods, and behind them whatever
    Keras' callback class provides.  A subclass puts its own attributes in
    front. *)

Module Callback.

Section Base.
Context {World Logs : Type}.

Definition pass : @CallbackList.method World Logs := λ _ _ w, (None, w).

Definition on_episode_begin : @CallbackList.method World Logs := pass.
Definition on_episode_end : @CallbackList.method World Logs := pass.
Definition on_step_begin : @CallbackList.method World Logs := pass.
Definition on_step_end : @CallbackList.method World Logs := pass.

Definition attributes (inherited : @CallbackList.callback World Logs)
    : @CallbackList.callback World Logs :=
  <["on_episode_begin" := CallbackList.Method on_episode_begin]>
  (<["on_episode_end" := CallbackList.Method on_episode_end]>
  (<["on_step_begin" := CallbackList.Method on_step_begin]>
  (<["on_step_end" := CallbackList.Method on_step_end]> inherited))).

Definition subclass (overrides base : gmap string (@CallbackList.attr World Logs))
    : @CallbackList.callback World Logs :=
  overrides ∪ base.

End Base.

End Callback.

(** ** Every call the training loop makes on a per-episode logger *)

Module EpisodeCalls.

Section Calls.
Context `{N : np.reductions}.

Inductive call : Type :=
  | TrainBegin (now : float) (model_metrics_names : list string)
      (nb_episodes nb_steps : option Z)
  | TrainEnd (now : float)
  | Episode (ev : TrainEpisodeLogger.event).

Definition perform (c : call) : py TrainEpisodeLogger.state () :=
  match c with
  | TrainBegin now names nb_episodes nb_steps =>
      TrainEpisodeLogger.on_train_begin now names nb_episodes nb_steps
  | TrainEnd now => TrainEpisodeLogger.on_train_end now
  | Episode ev => TrainEpisodeLogger.handle ev
  end.

(** The state after the calls [cs], each made on the state the previous
    one left, whether it returned or raised. *)
Fixpoint perform_all (cs : list call) (s : TrainEpisodeLogger.state)
    : TrainEpisodeLogger.state :=
  match cs with
  | [] => s
  | c :: rest => perform_all rest (post (perform c s))
  end.

(** The states a logger can be in, the step-end dictionaries being
    [step_logs]. *)
Definition reachable (s : TrainEpisodeLogger.state) : Prop :=
  ∃ cs, s = perform_all cs TrainEpisodeLogger.init.

(** The buffers of an episode are aligned when none exists, or all five
    exist and the four lists have one length. *)
Definition aligned (b : TrainEpisodeLogger.buffers) : Prop :=
  b = TrainEpisodeLogger.Buffers None None None None None ∨
  ∃ start obs rs acts rows,
    b = TrainEpisodeLogger.Buffers (Some start) (Some obs) (Some rs) (Some acts)
          (Some rows) ∧
    length obs = length rs ∧ length rs = length acts ∧ length acts = length rows.

End Calls.

End EpisodeCalls.

(** ** Every call the training loop makes on an interval logger *)

Module IntervalCalls.

Section Calls.
Context `{N : np.reductions}.

Inductive call : Type :=
  | TrainBegin (now : float) (model_metrics_names : list string)
      (nb_episodes nb_steps : option Z)
  | TrainEnd (now : float)
  | StepBegin (now : float)
  | StepEnd (logs : step_logs).

Definition perform (c : call) : py TrainIntervalLogger.state () :=
  match c with
  | TrainBegin now names nb_episodes nb_steps =>
      TrainIntervalLogger.on_train_begin now names nb_episodes nb_steps
  | TrainEnd now => TrainIntervalLogger.on_train_end now
  | StepBegin now => TrainIntervalLogger.on_step_begin now
  | StepEnd logs => TrainIntervalLogger.on_step_end logs
  end.

(** The state after the calls [cs], each made on the state the previous
    one left, whether it returned or raised. *)
Fixpoint perform_all (cs : list call) (s : TrainIntervalLogger.state)
    : TrainIntervalLogger.state :=
  match cs with
  | [] => s
  | c :: rest => perform_all rest (post (perform c s))
  end.

(** The states a logger constructed with [interval] can be in. *)
Definition reachable (interval : Z) (s : TrainIntervalLogger.state) : Prop :=
  ∃ now cs, s = perform_all cs (TrainIntervalLogger.init now interval).

(** A logger constructed with [interval] and, possibly, told that training
    begins. *)
Definition started (interval : Z) (s : TrainIntervalLogger.state) : Prop :=
  ∃ now,
    s = TrainIntervalLogger.init now interval ∨
    ∃ t names nb_episodes nb_steps,
      s = post (TrainIntervalLogger.on_train_begin t names nb_episodes nb_steps
                  (TrainIntervalLogger.init now interval)).

(** The calls in the order of a training loop: for every step a step-begin,
    with its timer value, then the step-end. *)
Fixpoint loop (steps : list (float * step_logs)) (s : TrainIntervalLogger.state)
    : TrainIntervalLogger.state :=
  match steps with
  | [] => s
  | (now, logs) :: rest =>
      loop rest
        (post (TrainIntervalLogger.on_step_end logs
                 (post (TrainIntervalLogger.on_step_begin now s))))
  end.

(** The positions the progress bar was moved to. *)
Definition positions (p : TrainIntervalLogger.Progbar) : list Z :=
  map fst (TrainIntervalLogger.updates p).

End Calls.

End IntervalCalls.

(** ** More sample objects and runs *)

Module samples.

#[local] Existing Instance np_sample.numpy.

(** An object with the eight methods of the episode, epoch, step and batch
    events, and no method for the beginning or the end of a run. *)
Definition units_only : @CallbackList.callback (list string) () := demo.rl_style.

(** The same object with an [on_train_begin]. *)
Definition with_train_begin : @CallbackList.callback (list string) () :=
  <["on_train_begin" := CallbackList.Method (demo.note "train begin")]> units_only.

(** A callback whose [on_episode_begin] raises. *)
Definition failing : @CallbackList.callback (list string) () :=
  <["on_episode_begin" :=
      CallbackList.Method (λ _ _ w, (Some (OtherError "boom"), w ++ ["failing"]))]> ∅.

Definition with_failing : @CallbackList.CallbackList (list string) () :=
  {| CallbackList.callbacks := [demo.keras_only; failing; demo.rl_style] |}.

(** What a subclass of [Callback] written in the style of Keras defines
    itself: [on_epoch_end] only. *)
Definition keras_style_overrides : gmap string (@CallbackList.attr (list string) ()) :=
  <["on_epoch_end" := CallbackList.Method (demo.note "subclass: epoch end")]> ∅.

Definition keras_style : @CallbackList.callback (list string) () :=
  Callback.subclass keras_style_overrides (Callback.attributes demo.keras_only).

(** Calls on a per-episode logger, three of which raise: a step-end
    without observation arrays, an episode-end without steps, and a
    step-end for an episode that was not begun. *)
Definition busy_calls : list EpisodeCalls.call :=
  [EpisodeCalls.TrainBegin 0%float ["loss"; "mae"] None (Some 100);
   EpisodeCalls.Episode (TrainEpisodeLogger.EpisodeBegin 10%float 4);
   EpisodeCalls.Episode
     (TrainEpisodeLogger.StepEnd (demo.step 4 1%float 0%float nan 1%float));
   EpisodeCalls.Episode (TrainEpisodeLogger.EpisodeBegin 11%float 5);
   EpisodeCalls.Episode
     (TrainEpisodeLogger.StepEnd (StepLogs 5 [] 1%float 0%float [nan; 1%float]));
   EpisodeCalls.Episode (TrainEpisodeLogger.EpisodeEnd 12%float 5);
   EpisodeCalls.Episode
     (TrainEpisodeLogger.StepEnd (demo.step 7 1%float 0%float nan 1%float));
   EpisodeCalls.TrainEnd 20%float].

Definition busy : TrainEpisodeLogger.state :=
  EpisodeCalls.perform_all busy_calls TrainEpisodeLogger.init.

(** Episode 2, begun at time 10.0, with the rewards 3.0, 1.0 and 2.0 in
    that order. *)
Definition unordered_steps : list step_logs :=
  [demo.step 2 3%float 0%float nan 1%float;
   demo.step 2 1%float 1%float nan 2%float;
   demo.step 2 2%float 1%float nan 4%float].

Definition unordered : TrainEpisodeLogger.state :=
  (TrainEpisodeLogger.run
     (TrainEpisodeLogger.EpisodeBegin 10%float 2
      :: map TrainEpisodeLogger.StepEnd unordered_steps) demo.trained).2.

(** Episode 4, begun at time 10.0, with a first metric that is plus
    infinity in one step and minus infinity in the next. *)
Definition infinite_loss : TrainEpisodeLogger.state :=
  (TrainEpisodeLogger.run
     [TrainEpisodeLogger.EpisodeBegin 10%float 4;
      TrainEpisodeLogger.StepEnd (demo.step 4 1%float 0%float infinity 1%float);
      TrainEpisodeLogger.StepEnd (demo.step 4 2%float 1%float neg_infinity 2%float)]
     demo.trained).2.

(** Episode 4 begun and ended with no step in between. *)
Definition ended_at_once : list TrainEpisodeLogger.event :=
  [TrainEpisodeLogger.EpisodeBegin 10%float 4;
   TrainEpisodeLogger.EpisodeEnd 12%float 4].

(** Calls on an interval logger with a window of 3. *)
Definition window3_calls : list IntervalCalls.call :=
  [IntervalCalls.StepEnd (demo.step 0 1%float 0%float 1%float 2%float);
   IntervalCalls.TrainBegin 0%float ["loss"; "mae"] None (Some 100);
   IntervalCalls.StepBegin 1%float;
   IntervalCalls.StepEnd (demo.step 0 1%float 0%float 1%float nan);
   IntervalCalls.StepEnd (demo.step 0 2%float 0%float nan 2%float);
   IntervalCalls.StepEnd (demo.step 0 3%float 0%float 3%float 3%float);
   IntervalCalls.StepBegin 2%float;
   IntervalCalls.StepEnd (demo.step 0 4%float 0%float 4%float 4%float);
   IntervalCalls.TrainEnd 9%float].

Definition window3 : TrainIntervalLogger.state :=
  IntervalCalls.perform_all window3_calls (TrainIntervalLogger.init 0%float 3).

(** Twelve steps of a training loop. *)
Definition twelve_steps : list (float * step_logs) :=
  repeat (1%float, demo.step 0 1%float 0%float 1%float nan) 12.

(** An interval logger with two metric names that has buffered a vector of
    three metrics. *)
Definition too_wide : TrainIntervalLogger.state :=
  post (TrainIntervalLogger.on_step_end
          (StepLogs 0 [[1%float]] 1%float 0%float [1%float; 2%float; 3%float])
          (post (TrainIntervalLogger.on_step_begin 1%float demo.window10))).

End samples.

(** * Properties *)

(** ** The callback list *)

Section CallbackListFacts.
Import CallbackList.
Context {World Logs : Type}.
Implicit Types (cb : @callback World Logs) (cbs : list (@callback World Logs))
  (self : @CallbackList World Logs) (w : World) (logs : Logs).

Lemma on_event_unfold ev self index logs w :
  on_event ev self index logs w =
  dispatch_from (new_name ev) (legacy_name ev) 0 (callbacks self) index logs w.
Proof. by destruct ev. Qed.

Lemma invoke_calls pos cb name index logs w :
  calls (invoke pos cb name index logs w) = [] ∨
  calls (invoke pos cb name index logs w) = [Call pos name index logs].
Proof.
  unfold invoke. destruct (cb !! name) as [[|m]|]; simpl; auto.
  destruct (m index logs w); simpl; auto.
Qed.

Lemma invoke_returned pos cb name index logs w :
  result (invoke pos cb name index logs w) = None →
  calls (invoke pos cb name index logs w) = [Call pos name index logs].
Proof.
  unfold invoke. destruct (cb !! name) as [[|m]|]; simpl; try done.
  destruct (m index logs w); simpl; auto.
Qed.

Lemma invoke_not_callable pos cb name index logs w :
  callable (cb !! name) = false →
  invoke pos cb name index logs w =
  Outcome (Some (match cb !! name with
                 | None => AttributeError name
                 | Some _ => TypeError
                 end)) w [].
Proof.
  unfold invoke. by destruct (cb !! name) as [[|m]|].
Qed.

(** The calls made are an initial segment of the expected ones. *)
Lemma dispatch_from_prefix ev pos cbs index logs w :
  ∃ n, calls (dispatch_from (new_name ev) (legacy_name ev) pos cbs index logs w)
       = take n (expected_from ev pos cbs index logs).
Proof.
  revert pos w. induction cbs as [|cb rest IH]; intros pos w; simpl.
  { by exists 0%nat. }
  unfold expected_from. rewrite imap_cons.
  set (r := if callable (cb !! new_name ev) then _ else _).
  assert (Hr : calls r = [] ∨
               calls r = [Call pos (chosen ev cb) index logs]).
  { subst r. unfold chosen.
    destruct (callable (cb !! new_name ev)); apply invoke_calls. }
  assert (Hret : result r = None →
                 calls r = [Call pos (chosen ev cb) index logs]).
  { subst r. unfold chosen.
    destruct (callable (cb !! new_name ev)); apply invoke_returned. }
  destruct (result r) as [e|] eqn:He.
  - destruct Hr as [-> | ->].
    + by exists 0%nat.
    + exists 1%nat. simpl. by rewrite Nat.add_0_r, take_0.
  - rewrite (Hret eq_refl). simpl.
    destruct (IH (S pos) (world r)) as [n Hn]. exists (S n).
    rewrite Hn. simpl. rewrite Nat.add_0_r. f_equal.
    unfold expected_from. f_equal. apply imap_ext. intros i x _. simpl.
    f_equal. lia.
Qed.

(** When the dispatch returns, every callback was invoked as expected. *)
Lemma dispatch_from_returned ev pos cbs index logs w :
  result (dispatch_from (new_name ev) (legacy_name ev) pos cbs index logs w) = None →
  calls (dispatch_from (new_name ev) (legacy_name ev) pos cbs index logs w)
  = expected_from ev pos cbs index logs.
Proof.
  revert pos w. induction cbs as [|cb rest IH]; intros pos w; simpl; [done|].
  unfold expected_from. rewrite imap_cons.
  set (r := if callable (cb !! new_name ev) then _ else _).
  assert (Hret : result r = None →
                 calls r = [Call pos (chosen ev cb) index logs]).
  { subst r. unfold chosen.
    destruct (callable (cb !! new_name ev)); apply invoke_returned. }
  destruct (result r) as [e|] eqn:He; simpl; [by rewrite He|].
  intros Hrest. rewrite (Hret eq_refl), (IH _ _ Hrest). simpl.
  rewrite Nat.add_0_r. f_equal.
  unfold expected_from. apply imap_ext. intros i x _. simpl. f_equal. lia.
Qed.

(** The loop over [l1 ++ l2] runs [l1], and goes on with [l2] only when
    [l1] returned. *)
Lemma dispatch_from_app new legacy pos l1 l2 index logs w :
  dispatch_from new legacy pos (l1 ++ l2) index logs w =
  let r := dispatch_from new legacy pos l1 index logs w in
  match result r with
  | Some _ => r
  | None =>
      let r' := dispatch_from new legacy (pos + length l1) l2 index logs (world r) in
      Outcome (result r') (world r') (calls r ++ calls r')
  end.
Proof.
  revert pos w. induction l1 as [|cb l1 IH]; intros pos w; simpl.
  { rewrite Nat.add_0_r. by destruct (dispatch_from _ _ _ _ _ _ _). }
  set (r := if callable (cb !! new) then _ else _).
  destruct (result r) as [e|] eqn:He; simpl; [by rewrite He|].
  rewrite IH.
  replace (pos + S (length l1))%nat with (S pos + length l1)%nat by lia.
  set (d := dispatch_from new legacy (S pos) l1 index logs (world r)).
  cbv zeta. destruct (result d) as [e|] eqn:Hd; cbn [result world calls].
  - by rewrite Hd.
  - by rewrite app_assoc.
Qed.


(** When every callback exposes one of the two methods and no method
    raises, the dispatch returns. *)
Lemma dispatch_from_returns new legacy pos cbs index logs w :
  (∀ cb, cb ∈ cbs → callable (cb !! new) = true ∨ callable (cb !! legacy) = true) →
  (∀ cb name m, cb ∈ cbs → cb !! name = Some (Method m) →
     ∀ i l w', (m i l w').1 = None) →
  result (dispatch_from new legacy pos cbs index logs w) = None.
Proof.
  revert pos w. induction cbs as [|cb rest IH]; intros pos w Hexp Hret; simpl; [done|].
  assert (Hinv : ∀ name, callable (cb !! name) = true →
                 result (invoke pos cb name index logs w) = None).
  { intros name Hc. unfold invoke.
    destruct (cb !! name) as [[|m]|] eqn:Hm; try done.
    specialize (Hret cb name m (list_elem_of_here _ _) Hm index logs w).
    destruct (m index logs w) as [e w']. exact Hret. }
  set (r := if callable (cb !! new) then _ else _).
  assert (Hr : result r = None).
  { subst r. destruct (callable (cb !! new)) eqn:Hn; [by apply Hinv|].
    destruct (Hexp cb (list_elem_of_here _ _)) as [H|H]; [congruence|by apply Hinv]. }
  rewrite Hr. cbn [result]. apply IH.
  - intros cb' Hin. apply Hexp. by apply list_elem_of_further.
  - intros cb' name m Hin. apply Hret. by apply list_elem_of_further.
Qed.

(** The dispatch to the first [i + 1] callbacks, when the first [i]
    returned, is the call of the method the callback at [i] is sent, in the
    world the first [i] left. *)
Lemma dispatch_from_step new legacy cbs index logs w i cb name m :
  cbs !! i = Some cb →
  name = (if callable (cb !! new) then new else legacy) →
  cb !! name = Some (Method m) →
  let before := dispatch_from new legacy 0 (take i cbs) index logs w in
  result before = None →
  dispatch_from new legacy 0 (take (S i) cbs) index logs w =
  Outcome (m index logs (world before)).1 (m index logs (world before)).2
    (calls before ++ [Call i name index logs]).
Proof.
  intros Hcb Hname Hm. cbv zeta. intros Hret.
  rewrite (take_S_r _ _ _ Hcb), dispatch_from_app. cbv zeta. rewrite Hret.
  rewrite length_take_le by (apply Nat.lt_le_incl; by eapply lookup_lt_Some).
  cbn [dispatch_from Nat.add].
  set (r := if callable (cb !! new) then _ else _).
  assert (Hr : r = let '(e, w') := m index logs
                         (world (dispatch_from new legacy 0 (take i cbs) index logs w)) in
                   Outcome e w' [Call i name index logs]).
  { subst r name. destruct (callable (cb !! new)); unfold invoke; by rewrite Hm. }
  rewrite Hr. destruct (m index logs _) as [[e|] w']; cbn [result world calls fst snd].
  - done.
  - by rewrite app_nil_r.
Qed.

(** C1 (amended).  Each of the four handlers the list defines (episode
    begin and end, step begin and end) treats every callback by its own
    capability.  Every call the list makes is the call of the callback at
    the same position, to [on_episode_begin] / [on_episode_end] /
    [on_step_begin] / [on_step_end] when that callback exposes it and to
    [on_epoch_begin] / [on_epoch_end] / [on_batch_begin] / [on_batch_end]
    otherwise, with the index and the log dictionary the list received.
    When the dispatch returns, every registered callback was called so; it
    does return when every callback exposes one of the two methods and no
    method raises.  The calls are made in the order of the list: what the
    dispatch to the first [i + 1] callbacks returns or raises, and the
    world it leaves, are what the method of the callback at [i] returns or
    raises and leaves when it is applied to the index, the log dictionary
    and the world the first [i] callbacks left.  The beginning and the end
    of a run are not dispatched this way: the inherited handlers call
    [on_train_begin] or [on_train_end] on every callback in turn, with the
    log dictionary and no index, and raise [AttributeError] on a callback
    without it, whatever else the callback exposes. *)
Theorem dispatch_per_callback ev self index logs w :
  let r := on_event ev self index logs w in
  (∀ i c, calls r !! i = Some c →
     ∃ cb, callbacks self !! i = Some cb ∧
       c = Call i (if callable (cb !! new_name ev)
                   then new_name ev else legacy_name ev) index logs) ∧
  (result r = None →
     ∀ i cb, callbacks self !! i = Some cb →
       calls r !! i =
       Some (Call i (if callable (cb !! new_name ev)
                     then new_name ev else legacy_name ev) index logs)) ∧
  ((∀ cb, cb ∈ callbacks self →
      callable (cb !! new_name ev) = true ∨ callable (cb !! legacy_name ev) = true) →
   (∀ cb name m, cb ∈ callbacks self → cb !! name = Some (Method m) →
      ∀ i l w', (m i l w').1 = None) →
   result r = None) ∧
  (∀ i cb m,
     callbacks self !! i = Some cb →
     let name := if callable (cb !! new_name ev)
                 then new_name ev else legacy_name ev in
     let before := dispatch_from (new_name ev) (legacy_name ev) 0
                     (take i (callbacks self)) index logs w in
     cb !! name = Some (Method m) →
     result before = None →
     dispatch_from (new_name ev) (legacy_name ev) 0
       (take (S i) (callbacks self)) index logs w =
     Outcome (m index logs (world before)).1 (m index logs (world before)).2
       (calls before ++ [Call i name index logs])) ∧
  r = dispatch_from (new_name ev) (legacy_name ev) 0
        (take (length (callbacks self)) (callbacks self)) index logs w ∧
  (∀ call_with_logs cb rest,
     (cb !! "on_train_begin" = None →
      on_train_begin call_with_logs {| callbacks := cb :: rest |} logs w =
      (Some (AttributeError "on_train_begin"), w)) ∧
     (cb !! "on_train_end" = None →
      on_train_end call_with_logs {| callbacks := cb :: rest |} logs w =
      (Some (AttributeError "on_train_end"), w)) ∧
     (∀ m, cb !! "on_train_begin" = Some (Method m) →
        on_train_begin call_with_logs {| callbacks := cb :: rest |} logs w =
        match call_with_logs m logs w with
        | (Some e, w') => (Some e, w')
        | (None, w') => on_train_begin call_with_logs {| callbacks := rest |} logs w'
        end) ∧
     (∀ m, cb !! "on_train_end" = Some (Method m) →
        on_train_end call_with_logs {| callbacks := cb :: rest |} logs w =
        match call_with_logs m logs w with
        | (Some e, w') => (Some e, w')
        | (None, w') => on_train_end call_with_logs {| callbacks := rest |} logs w'
        end)).
Proof.
  cbv zeta. rewrite on_event_unfold. split; [|split; [|split; [|split; [|split]]]].
  - intros i c Hc.
    destruct (dispatch_from_prefix ev 0 (callbacks self) index logs w) as [n Hn].
    rewrite Hn in Hc. apply lookup_take_Some in Hc as [Hc _].
    unfold expected_from in Hc. rewrite list_lookup_imap in Hc.
    destruct (callbacks self !! i) as [cb|]; [|done].
    exists cb. split; [done|]. simpl in Hc. by injection Hc as <-.
  - intros Hret i cb Hcb.
    rewrite (dispatch_from_returned _ _ _ _ _ _ Hret).
    unfold expected_from. rewrite list_lookup_imap, Hcb. done.
  - apply dispatch_from_returns.
  - intros i cb m Hcb Hm Hret.
    by apply (dispatch_from_step _ _ _ _ _ _ i cb _ m).
  - by rewrite firstn_all.
  - intros call_with_logs cb rest.
    repeat split; intros; unfold on_train_begin, on_train_end;
      cbn [callbacks run_dispatch]; unfold invoke_with_logs; by simplify_option_eq.
Qed.

(** C2.  A callback that exposes neither the new-convention nor the legacy
    method for an event makes the dispatch of that event raise: the
    dispatch never returns normally, and when the callbacks before it
    returned, the exception is the [AttributeError] (or [TypeError], for an
    attribute that is not callable) of the legacy call on that very
    callback, with no later callback called. *)
Theorem dispatch_missing_method ev self index logs w i cb :
  callbacks self !! i = Some cb →
  exposes_neither ev cb →
  let r := on_event ev self index logs w in
  let r0 := dispatch_from (new_name ev) (legacy_name ev) 0
              (take i (callbacks self)) index logs w in
  result r ≠ None ∧
  (result r0 = None →
   r = Outcome (Some (missing ev cb)) (world r0) (calls r0)).
Proof.
  intros Hcb [Hnew Hleg]. cbv zeta. rewrite on_event_unfold.
  rewrite <- (take_drop_middle _ _ _ Hcb) at 1 3.
  rewrite dispatch_from_app. cbv zeta.
  set (r0 := dispatch_from _ _ 0 (take i (callbacks self)) index logs w).
  assert (Hhere : ∀ pos rest w',
    dispatch_from (new_name ev) (legacy_name ev) pos (cb :: rest) index logs w' =
    Outcome (Some (missing ev cb)) w' []).
  { intros pos rest w'. simpl. rewrite Hnew.
    rewrite (invoke_not_callable _ _ _ _ _ _ Hleg). done. }
  destruct (result r0) as [e|] eqn:He.
  - split; [by rewrite He|done].
  - rewrite Hhere. cbn [result world calls]. rewrite app_nil_r. done.
Qed.

End CallbackListFacts.

(** ** Calls in sequence *)

Section PyFacts.
Context {S : Type}.

Lemma reply_eta {A} (r : reply S A) : Reply (ret r) (post r) (printed r) = r.
Proof. by destruct r. Qed.

Lemma bind_eq {A B} (m : py S A) (k : A → py S B) (s : S) :
  (m ≫= k) s =
  match ret (m s) with
  | inl e => Reply (inl e) (post (m s)) (printed (m s))
  | inr a =>
      Reply (ret (k a (post (m s)))) (post (k a (post (m s))))
            (printed (m s) ++ printed (k a (post (m s))))
  end.
Proof. reflexivity. Qed.

Lemma bind_lift {A B} (c : py_exn + A) (k : A → py S B) (s : S) :
  (lift c ≫= k) s =
  match c with
  | inl e => Reply (inl e) s []
  | inr a => k a s
  end.
Proof.
  destruct c as [e|a]; unfold mbind, py_mbind, py_bind; simpl; [done|].
  apply reply_eta.
Qed.

Lemma bind_item {V B} (d : S → gmap Z V) (key : Z) (k : V → py S B) (s : S) :
  (item d key ≫= k) s =
  match d s !! key with
  | Some v => k v s
  | None => Reply (inl (KeyError key)) s []
  end.
Proof.
  unfold item, getitem, mbind, py_mbind, py_bind.
  destruct (d s !! key); simpl; [apply reply_eta|done].
Qed.

Lemma bind_field {A B} (name : string) (f : S → option A) (k : A → py S B) (s : S) :
  (field name f ≫= k) s =
  match f s with
  | Some a => k a s
  | None => Reply (inl (AttributeError name)) s []
  end.
Proof.
  unfold field, mbind, py_mbind, py_bind.
  destruct (f s); simpl; [apply reply_eta|done].
Qed.

Lemma bind_read {A B} (f : S → A) (k : A → py S B) (s : S) :
  (read f ≫= k) s = k (f s) s.
Proof. unfold read, mbind, py_mbind, py_bind. simpl. apply reply_eta. Qed.

Lemma bind_write {B} (f : S → S) (k : () → py S B) (s : S) :
  (write f ≫= k) s = k () (f s).
Proof. unfold write, mbind, py_mbind, py_bind. simpl. apply reply_eta. Qed.

Lemma bind_print {B} (line : string) (k : () → py S B) (s : S) :
  (print line ≫= k) s =
  Reply (ret (k () s)) (post (k () s)) (line :: printed (k () s)).
Proof. by unfold print, mbind, py_mbind, py_bind. Qed.

Lemma bind_ret {A B} (a : A) (k : A → py S B) (s : S) :
  (mret a ≫= k) s = k a s.
Proof. unfold mret, py_mret, py_ret, mbind, py_mbind, py_bind. simpl. apply reply_eta. Qed.

End PyFacts.

(** ** The per-episode logger *)

Section TrainEpisodeLoggerFacts.
Import TrainEpisodeLogger.
Context `{N : np.reductions}.
Implicit Types (s : state) (episode : Z) (logs : step_logs) (ev : event).

Lemma on_episode_begin_eq now episode s :
  on_episode_begin now episode s =
  Reply (inr ())
    (State (train_start s) (metrics_names s)
       (<[episode := now]> (episode_start s)) (<[episode := []]> (observations s))
       (<[episode := []]> (rewards s)) (<[episode := []]> (actions s))
       (<[episode := []]> (metrics s))) [].
Proof. reflexivity. Qed.

(** [on_step_end], read by read and write by write. *)
Lemma on_step_end_eq logs s :
  on_step_end logs s =
  let episode := log_episode logs in
  match observations s !! episode with
  | None => Reply (inl (KeyError episode)) s []
  | Some obs =>
      match np.concatenate (log_observation logs) with
      | inl e => Reply (inl e) s []
      | inr flat =>
          let s1 := set_observations <[episode := obs ++ [flat]]> s in
          match rewards s !! episode with
          | None => Reply (inl (KeyError episode)) s1 []
          | Some rs =>
              let s2 := set_rewards <[episode := rs ++ [log_reward logs]]> s1 in
              match actions s !! episode with
              | None => Reply (inl (KeyError episode)) s2 []
              | Some acts =>
                  let s3 := set_actions <[episode := acts ++ [log_action logs]]> s2 in
                  match metrics s !! episode with
                  | None => Reply (inl (KeyError episode)) s3 []
                  | Some rows =>
                      Reply (inr ())
                        (set_metrics <[episode := rows ++ [log_metrics logs]]> s3) []
                  end
              end
          end
      end
  end.
Proof.
  unfold on_step_end. cbv zeta.
  rewrite bind_item. destruct (observations s !! log_episode logs) as [obs|]; [|done].
  rewrite bind_lift. destruct (np.concatenate (log_observation logs)) as [e|flat]; [done|].
  rewrite bind_write, bind_item. cbn [rewards set_observations].
  destruct (rewards s !! log_episode logs) as [rs|]; [|done].
  rewrite bind_write, bind_item. cbn [actions set_rewards set_observations].
  destruct (actions s !! log_episode logs) as [acts|]; [|done].
  rewrite bind_write, bind_item. cbn [metrics set_actions set_rewards set_observations].
  destruct (metrics s !! log_episode logs) as [rows|]; [|done].
  reflexivity.
Qed.

(** [summary] reads the buffers of its episode and the metric names, and
    changes nothing. *)
Lemma summary_eq now episode s :
  summary now episode s =
  Reply (summary_of (metrics_names s) now episode (view episode s)) s [].
Proof.
  unfold summary, summary_of, view, get_metrics_names. cbn [b_start b_observations
    b_rewards b_actions b_metrics].
  rewrite bind_item. destruct (episode_start s !! episode) as [start|]; [|done].
  cbn [need and_then]. rewrite bind_item.
  destruct (observations s !! episode) as [obs|] eqn:Hobs; [|done].
  cbn [need and_then]. rewrite bind_item.
  destruct (metrics s !! episode) as [rows|]; [|done].
  cbn [need and_then]. rewrite bind_field.
  destruct (metrics_names s) as [ns|]; [|done].
  cbn [and_then]. rewrite bind_lift.
  destruct (format_metrics ns rows) as [e|text]; [done|].
  cbn [and_then]. rewrite bind_lift.
  destruct (truediv _ _) as [e|sps]; [done|].
  cbn [and_then]. rewrite bind_item.
  destruct (rewards s !! episode) as [rs|]; [|done].
  cbn [need and_then]. rewrite bind_lift.
  destruct (np.min rs) as [e|rmin]; [done|].
  cbn [and_then]. rewrite bind_lift.
  destruct (np.max rs) as [e|rmax]; [done|].
  cbn [and_then]. rewrite bind_item.
  destruct (actions s !! episode) as [acts|]; [|done].
  cbn [need and_then]. rewrite bind_lift.
  destruct (np.min acts) as [e|amin]; [done|].
  cbn [and_then]. rewrite bind_lift.
  destruct (np.max acts) as [e|amax]; [done|].
  cbn [and_then]. rewrite bind_item.
  rewrite Hobs, bind_lift.
  destruct (np.ravel _) as [e|flat]; [done|].
  cbn [and_then]. rewrite bind_lift.
  destruct (np.min flat) as [e|omin]; [done|].
  cbn [and_then]. rewrite bind_lift.
  destruct (np.max flat) as [e|omax]; done.
Qed.

(** No element is left for the mean exactly when the column is all NaN. *)
Lemma nanmean_nothing_kept col :
  Nat.eqb (length (filter (λ x, np.isnan x = false) col)) 0 = forallb np.isnan col.
Proof.
  induction col as [|x col IH]; [done|].
  cbn [forallb]. destruct (np.isnan x) eqn:Hx.
  - rewrite filter_cons_False by (by rewrite Hx). done.
  - rewrite filter_cons_True by done. done.
Qed.

(** [np.nanmean] warns for an all-NaN column ("Mean of empty slice"). *)
Lemma nanmean_empty_slice col :
  forallb np.isnan col = true → (np.nanmean col).2 = true.
Proof.
  intros H. unfold np.nanmean. cbn [snd]. by rewrite nanmean_nothing_kept, H.
Qed.

Lemma zeroed_elem_of (x : float) col :
  np.isnan x = false → x ∈ col →
  x ∈ map (λ x, if np.isnan x then 0%float else x) col.
Proof.
  intros Hx Hin. apply list_elem_of_fmap. exists x. by rewrite Hx.
Qed.

Lemma existsb_elem_of (p : float → bool) (x : float) l :
  p x = true → x ∈ l → existsb p l = true.
Proof.
  intros Hp Hin. apply existsb_exists. exists x. split; [|done].
  by apply list_elem_of_In.
Qed.

(** [np.nanmean] warns for a column that holds both infinities ("invalid
    value"). *)
Lemma nanmean_invalid col :
  infinity ∈ col → neg_infinity ∈ col → (np.nanmean col).2 = true.
Proof.
  intros Hpos Hneg. unfold np.nanmean. cbn [snd].
  rewrite (existsb_elem_of np.is_posinf infinity), (existsb_elem_of np.is_neginf neg_infinity);
    try done; try (by apply zeroed_elem_of).
  by rewrite orb_true_r.
Qed.

Lemma format_metrics_from_spec rows n w names :
  np.shape2 rows = Some (n, w) →
  ∀ idx0, (idx0 + length names ≤ w)%nat →
  ∃ texts,
    format_metrics_from idx0 names rows = inr texts ∧
    length texts = length names ∧
    ∀ i name, names !! i = Some name →
      texts !! i =
      Some (format_metric name
              (np.nanmean (map (λ r, nth (idx0 + i) r nan) rows))).
Proof.
  intros Hshape. induction names as [|name names IH]; intros idx0 Hw.
  - exists []. done.
  - cbn [format_metrics_from length] in *.
    unfold np.column. rewrite Hshape.
    destruct (Nat.ltb_spec idx0 w) as [_|?]; [|lia].
    destruct (IH (S idx0)) as (texts & -> & Hlen & Htexts); [lia|].
    eexists. split; [done|]. split; [by rewrite <- Hlen|].
    intros [|i] name' Hname; simpl in Hname.
    + injection Hname as <-. by rewrite Nat.add_0_r.
    + simpl. rewrite (Htexts i name' Hname). do 3 f_equal.
      apply map_ext. intros r. f_equal. lia.
Qed.

Lemma delitem_eq {V} (d : state → gmap Z V) set episode s :
  delitem d set episode s =
  match d s !! episode with
  | Some _ => Reply (inr ()) (set (delete episode) s) []
  | None => Reply (inl (KeyError episode)) s []
  end.
Proof.
  unfold delitem. rewrite bind_item. by destruct (d s !! episode).
Qed.

Lemma bind_delitem {V B} (d : state → gmap Z V) set episode (k : () → py state B) s :
  (delitem d set episode ≫= k) s =
  match d s !! episode with
  | Some _ => k () (set (delete episode) s)
  | None => Reply (inl (KeyError episode)) s []
  end.
Proof.
  unfold mbind, py_mbind, py_bind. rewrite delitem_eq.
  destruct (d s !! episode); simpl; [apply reply_eta|done].
Qed.

(** A summary is produced only when the five buffers of the episode exist. *)
Lemma summary_of_returned names now episode b line :
  summary_of names now episode b = inr line →
  is_Some (b_start b) ∧ is_Some (b_observations b) ∧ is_Some (b_rewards b) ∧
  is_Some (b_actions b) ∧ is_Some (b_metrics b).
Proof.
  unfold summary_of. intros H.
  destruct (b_start b); [|done]. cbn [need and_then] in H.
  destruct (b_observations b); [|done]. cbn [need and_then] in H.
  destruct (b_metrics b); [|done]. cbn [need and_then] in H.
  destruct names; [|done]. cbn [and_then] in H.
  destruct (format_metrics _ _); [done|]. cbn [and_then] in H.
  destruct (truediv _ _); [done|]. cbn [and_then] in H.
  destruct (b_rewards b); [|done]. cbn [need and_then] in H.
  destruct (np.min _); [done|]. cbn [and_then] in H.
  destruct (np.max _); [done|]. cbn [and_then] in H.
  destruct (b_actions b); [|done].
  repeat split; eauto.
Qed.

(** [on_episode_end] either raises while it computes the summary, and then
    has changed and printed nothing, or prints the summary and deletes the
    five entries of the episode. *)
Lemma on_episode_end_eq now episode s :
  on_episode_end now episode s =
  match summary_of (metrics_names s) now episode (view episode s) with
  | inl e => Reply (inl e) s []
  | inr line => Reply (inr ()) (purge episode s) [line]
  end.
Proof.
  unfold on_episode_end. rewrite (bind_eq (summary now episode)), summary_eq.
  cbn [ret post printed app].
  destruct (summary_of _ _ _ _) as [e|line] eqn:Hsum; [done|].
  apply summary_of_returned in Hsum as ([? H1] & [? H2] & [? H3] & [? H4] & [? H5]).
  cbn [view b_start b_observations b_rewards b_actions b_metrics] in *.
  rewrite reply_eta, bind_print, bind_delitem, H1, bind_delitem.
  cbn [observations set_episode_start]. rewrite H2, bind_delitem.
  cbn [rewards set_observations set_episode_start]. rewrite H3, bind_delitem.
  cbn [actions set_rewards set_observations set_episode_start]. rewrite H4, delitem_eq.
  cbn [metrics set_actions set_rewards set_observations set_episode_start].
  rewrite H5. reflexivity.
Qed.

Lemma view_purge episode s : absent episode (purge episode s).
Proof.
  unfold absent, view, purge. simpl. by rewrite !lookup_delete_eq.
Qed.

Lemma view_purge_ne episode e s :
  episode ≠ e → view e (purge episode s) = view e s.
Proof.
  intros Hne. unfold view, purge. simpl. by rewrite !lookup_delete_ne.
Qed.

(** A handler leaves [metrics_names] as it is. *)
Lemma handle_metrics_names ev s :
  metrics_names (post (handle ev s)) = metrics_names s.
Proof.
  destruct ev as [now e|logs|now e]; simpl.
  - done.
  - rewrite on_step_end_eq. cbv zeta.
    repeat (case_match; try done).
  - rewrite on_episode_end_eq. by case_match.
Qed.

(** A handler leaves the buffers of the other episodes as they are. *)
Lemma handle_frame ev s e :
  event_episode ev ≠ e → view e (post (handle ev s)) = view e s.
Proof.
  intros Hne. destruct ev as [now e'|logs|now e']; simpl in *.
  - unfold view. simpl. by rewrite !lookup_insert_ne.
  - rewrite on_step_end_eq. cbv zeta.
    repeat (case_match; try done); unfold view; simpl;
      by rewrite ?lookup_insert_ne.
  - rewrite on_episode_end_eq. case_match; [done|]. by apply view_purge_ne.
Qed.

(** What a handler returns or raises, what it prints and the buffers it
    leaves for its episode depend on the state only through the buffers of
    that episode and the metric names. *)
Lemma handle_local ev s1 s2 :
  view (event_episode ev) s1 = view (event_episode ev) s2 →
  metrics_names s1 = metrics_names s2 →
  observe ev (handle ev s1) = observe ev (handle ev s2) ∧
  view (event_episode ev) (post (handle ev s1)) =
  view (event_episode ev) (post (handle ev s2)).
Proof.
  intros Hview Hnames. destruct ev as [now e|logs|now e]; simpl in *.
  - split; [done|]. unfold view. simpl. by rewrite !lookup_insert_eq.
  - rewrite !on_step_end_eq. cbv zeta.
    unfold view in Hview. injection Hview as H1 H2 H3 H4 H5.
    rewrite H2, H3, H4, H5.
    repeat (case_match; try done); unfold observe, view; simpl;
      rewrite ?lookup_insert_eq; split; congruence.
  - rewrite !on_episode_end_eq, Hview, Hnames.
    case_match; [done|]. split; [done|].
    by rewrite (view_purge e s1), (view_purge e s2).
Qed.

Lemma run_cons ev evs s :
  run (ev :: evs) s =
  (observe ev (handle ev s) :: (run evs (post (handle ev s))).1,
   (run evs (post (handle ev s))).2).
Proof. simpl. by destruct (run evs (post (handle ev s))). Qed.

Lemma run_app evs1 evs2 s :
  run (evs1 ++ evs2) s =
  ((run evs1 s).1 ++ (run evs2 (run evs1 s).2).1, (run evs2 (run evs1 s).2).2).
Proof.
  revert s. induction evs1 as [|ev evs1 IH]; intros s.
  - simpl. by destruct (run evs2 s).
  - rewrite <- app_comm_cons, !run_cons, IH. done.
Qed.

(** The calls about [e1], seen in a merge with calls about other episodes,
    behave as they do alone. *)
Lemma run_interleaving e1 evs1 evs2 evs :
  interleaving evs1 evs2 evs →
  Forall (λ ev, event_episode ev = e1) evs1 →
  Forall (λ ev, event_episode ev ≠ e1) evs2 →
  ∀ s s', view e1 s = view e1 s' → metrics_names s = metrics_names s' →
    filter (λ o, about o = e1) (run evs s).1 = (run evs1 s').1 ∧
    view e1 (run evs s).2 = view e1 (run evs1 s').2.
Proof.
  induction 1 as [|ev l1 l2 l Hl IH|ev l1 l2 l Hl IH]; intros H1 H2 s s' Hview Hnames.
  - done.
  - apply Forall_cons in H1 as [Hev H1]. rewrite !run_cons. cbn [fst snd].
    subst e1. destruct (handle_local ev s s' Hview Hnames) as [Hobs Hpost].
    destruct (IH H1 H2 (post (handle ev s)) (post (handle ev s'))) as [IHo IHv];
      [done|by rewrite !handle_metrics_names|].
    split; [|done].
    rewrite filter_cons_True by done. by rewrite Hobs, IHo.
  - apply Forall_cons in H2 as [Hev H2]. rewrite run_cons. cbn [fst snd].
    destruct (IH H1 H2 (post (handle ev s)) s') as [IHo IHv];
      [by rewrite handle_frame|by rewrite handle_metrics_names|].
    split; [|done].
    by rewrite filter_cons_False.
Qed.

(** C4.  When the calls about two distinct episodes [e1] and [e2] are
    interleaved in any order, every call about [e1] returns or raises and
    prints exactly what it does when the calls about [e1] run alone from
    the same state; in particular the summary line printed at the end of
    [e1] (duration, step count, reward, action and observation aggregates,
    metric means) is the same, and so are the buffers left for [e1]. *)
Theorem interleaved_episodes_independent e1 e2 evs1 evs2 evs s :
  e1 ≠ e2 →
  Forall (λ ev, event_episode ev = e1) evs1 →
  Forall (λ ev, event_episode ev = e2) evs2 →
  interleaving evs1 evs2 evs →
  filter (λ o, about o = e1) (run evs s).1 = (run evs1 s).1 ∧
  view e1 (run evs s).2 = view e1 (run evs1 s).2.
Proof.
  intros Hne H1 H2 Hmerge.
  apply (run_interleaving e1 evs1 evs2 evs); try done.
  eapply Forall_impl; [exact H2|]. simpl. intros ev ->. done.
Qed.

Lemma on_step_end_absent logs s :
  observations s !! log_episode logs = None →
  on_step_end logs s = Reply (inl (KeyError (log_episode logs))) s [].
Proof. intros H. rewrite on_step_end_eq. cbv zeta. by rewrite H. Qed.

Lemma present_view e s s' : view e s = view e s' → present e s → present e s'.
Proof.
  unfold view, present. intros H. by injection H as <- <- <- <- <-.
Qed.

Lemma view_present e s start obs rs acts rows :
  view e s = Buffers (Some start) (Some obs) (Some rs) (Some acts) (Some rows) →
  present e s ∧ episode_start s !! e = Some start.
Proof.
  unfold view, present. intros [= -> -> -> -> ->]. eauto 10.
Qed.

Lemma absent_view e s s' : view e s = view e s' → absent e s → absent e s'.
Proof. unfold absent. congruence. Qed.

Lemma on_step_end_present logs s :
  present (log_episode logs) s → present (log_episode logs) (post (on_step_end logs s)).
Proof.
  intros ([? H1] & [? H2] & [? H3] & [? H4] & [? H5]).
  rewrite on_step_end_eq. cbv zeta. rewrite H2, H3, H4, H5.
  case_match; unfold present; simpl; rewrite ?lookup_insert_eq; eauto 10.
Qed.

(** While every call returns, the buffers of an episode exist exactly when
    the episode is open. *)
Lemma run_open e evs :
  ∀ (b : bool) s,
    (if b then present e s else absent e s) →
    Forall (λ o, raised o = None) (run evs s).1 →
    if open_from b e evs then present e (run evs s).2 else absent e (run evs s).2.
Proof.
  induction evs as [|ev evs IH]; intros b s Hs Hret; [done|].
  rewrite run_cons in Hret |- *. cbn [fst snd] in *.
  apply Forall_cons in Hret as [Hev Hret].
  destruct ev as [now e'|logs|now e']; cbn [open_from].
  - apply IH; [|done]. simpl. case_decide as He.
    + subst e'. unfold present. simpl. rewrite !lookup_insert_eq. eauto 10.
    + assert (Hv : view e s = view e (post (handle (EpisodeBegin now e') s)))
        by (symmetry; by apply handle_frame).
      destruct b; [by eapply present_view|by eapply absent_view].
  - apply IH; [|done]. cbn [handle].
    destruct (decide (log_episode logs = e)) as [He|He].
    + subst e. destruct b; [by apply on_step_end_present|].
      exfalso. unfold absent, view in Hs. injection Hs as _ H2 _ _ _.
      unfold observe in Hev. cbn [handle raised] in Hev.
      by rewrite (on_step_end_absent _ _ H2) in Hev.
    + assert (Hv : view e s = view e (post (handle (StepEnd logs) s)))
        by (symmetry; by apply handle_frame).
      destruct b; [by eapply present_view|by eapply absent_view].
  - apply IH; [|done]. cbn [handle]. case_decide as He.
    + subst e'. unfold observe in Hev. cbn [handle raised] in Hev.
      rewrite on_episode_end_eq in Hev |- *.
      destruct (summary_of _ _ _ _); [done|]. apply view_purge.
    + assert (Hv : view e s = view e (post (handle (EpisodeEnd now e') s)))
        by (symmetry; by apply handle_frame).
      destruct b; [by eapply present_view|by eapply absent_view].
Qed.

Lemma started_absent s0 episode : started s0 → absent episode s0.
Proof. by intros [-> | (now & names & nb_e & nb_s & ->)]. Qed.

(** Whichever calls raised, the buffers of an episode exist exactly when
    the episode is live. *)
Lemma run_live e evs :
  ∀ (b : bool) s,
    (if b then present e s else absent e s) →
    if live_from b e evs (run evs s).1
    then present e (run evs s).2 else absent e (run evs s).2.
Proof.
  induction evs as [|ev evs IH]; intros b s Hs; [by destruct b|].
  rewrite run_cons. cbn [fst snd].
  destruct ev as [now e'|logs|now e']; cbn [live_from].
  - apply IH. simpl. case_decide as He.
    + subst e'. unfold present. simpl. rewrite !lookup_insert_eq. eauto 10.
    + assert (Hv : view e s = view e (post (handle (EpisodeBegin now e') s)))
        by (symmetry; by apply handle_frame).
      destruct b; [by eapply present_view|by eapply absent_view].
  - apply IH. cbn [handle].
    destruct (decide (log_episode logs = e)) as [He|He].
    + subst e. destruct b; [by apply on_step_end_present|].
      unfold absent, view in Hs. injection Hs as H1 H2 H3 H4 H5.
      rewrite (on_step_end_absent _ _ H2). cbn [post].
      unfold absent, view. by rewrite H1, H2, H3, H4, H5.
    + assert (Hv : view e s = view e (post (handle (StepEnd logs) s)))
        by (symmetry; by apply handle_frame).
      destruct b; [by eapply present_view|by eapply absent_view].
  - apply IH. cbn [handle]. case_decide as He.
    + subst e'. unfold observe. cbn [raised].
      rewrite on_episode_end_eq.
      destruct (summary_of _ _ _ _); cbn [ret post]; [done|]. apply view_purge.
    + assert (Hv : view e s = view e (post (handle (EpisodeEnd now e') s)))
        by (symmetry; by apply handle_frame).
      destruct b; [by eapply present_view|by eapply absent_view].
Qed.

(** C10 (amended).  Take a logger as it is constructed, or after
    [on_train_begin], and any calls, whichever of them raised.  If no
    episode-begin for [episode] came after its last episode-end that
    returned, or none came at all, then the buffers of [episode] are
    absent, and a step-end whose [logs['episode']] is [episode] raises
    [KeyError], prints nothing and leaves the whole state of the logger,
    hence every buffer of every episode, as it was.  Otherwise, and in
    particular after an episode-end that raised, the buffers of [episode]
    exist and the step-end does not raise [KeyError]. *)
Theorem step_end_unopened_episode s0 evs episode logs :
  started s0 →
  log_episode logs = episode →
  (live_after episode evs (run evs s0).1 = false →
   absent episode (run evs s0).2 ∧
   on_step_end logs (run evs s0).2 =
   Reply (inl (KeyError episode)) (run evs s0).2 []) ∧
  (live_after episode evs (run evs s0).1 = true →
   present episode (run evs s0).2 ∧
   ret (on_step_end logs (run evs s0).2) ≠ inl (KeyError episode)).
Proof.
  intros Hs0 <-.
  pose proof (run_live (log_episode logs) evs false s0 (started_absent _ _ Hs0)) as H.
  unfold live_after. split; intros Hlive; rewrite Hlive in H.
  - split; [done|]. apply on_step_end_absent.
    unfold absent, view in H. by injection H.
  - split; [done|].
    destruct H as ([? H1] & [? H2] & [? H3] & [? H4] & [? H5]).
    rewrite on_step_end_eq. cbv zeta. rewrite H2, H3, H4, H5.
    unfold np.concatenate. by destruct (log_observation logs).
Qed.

(** With a duration of zero no summary is computed; the exception is that
    of the division unless an earlier read raised. *)
Lemma summary_of_zero_duration names now episode b start :
  b_start b = Some start →
  PrimFloat.eqb (PrimFloat.sub now start) 0 = true →
  ∃ err, summary_of names now episode b = inl err ∧
    ∀ obs rows ns text,
      b_observations b = Some obs → b_metrics b = Some rows →
      names = Some ns → format_metrics ns rows = inr text →
      err = ZeroDivisionError.
Proof.
  intros Hstart Hzero. unfold summary_of. rewrite Hstart. cbn [need and_then].
  destruct (b_observations b) as [obs|]; cbn [need and_then];
    [|eexists; split; [done|intros; congruence]].
  destruct (b_metrics b) as [rows|]; cbn [need and_then];
    [|eexists; split; [done|intros; congruence]].
  destruct names as [ns|]; cbn [and_then];
    [|eexists; split; [done|intros; congruence]].
  destruct (format_metrics ns rows) as [e|text] eqn:Hfmt; cbn [and_then];
    [eexists; split; [done|intros; congruence]|].
  unfold truediv. rewrite Hzero. cbn [and_then]. by eexists.
Qed.

(** With no step recorded no summary is computed. *)
Lemma summary_of_no_steps names now episode start :
  ∃ err, summary_of names now episode
           (Buffers (Some start) (Some []) (Some []) (Some []) (Some [])) = inl err.
Proof.
  unfold summary_of. cbn [b_start b_observations b_rewards b_actions b_metrics
    need and_then].
  destruct names as [[|name ns]|]; cbn [and_then]; [| |by eexists].
  - cbn [format_metrics format_metrics_from join and_then].
    destruct (truediv _ _); cbn [and_then need np.min]; by eexists.
  - by eexists.
Qed.

Lemma on_step_end_episode_start logs s :
  episode_start (post (on_step_end logs s)) = episode_start s.
Proof.
  rewrite on_step_end_eq. cbv zeta. repeat (case_match; try done).
Qed.

Lemma steps_present e steps s :
  Forall (λ l, log_episode l = e) steps →
  present e s →
  present e (run (map StepEnd steps) s).2 ∧
  episode_start (run (map StepEnd steps) s).2 = episode_start s.
Proof.
  revert s. induction steps as [|logs steps IH]; intros s Hall Hs; [done|].
  apply Forall_cons in Hall as [<- Hall]. cbn [map]. rewrite run_cons. cbn [snd handle].
  destruct (IH (post (on_step_end logs s)) Hall (on_step_end_present _ _ Hs))
    as [Hp He].
  split; [done|]. by rewrite He, on_step_end_episode_start.
Qed.

(** A step-end with at least one observation array, on an episode whose
    buffers exist, returns and appends one entry to each buffer. *)
Lemma on_step_end_view logs s start obs rs acts rows :
  view (log_episode logs) s = Buffers start (Some obs) (Some rs) (Some acts) (Some rows) →
  log_observation logs ≠ [] →
  ret (on_step_end logs s) = inr () ∧
  metrics_names (post (on_step_end logs s)) = metrics_names s ∧
  view (log_episode logs) (post (on_step_end logs s)) =
  Buffers start (Some (obs ++ [concat (log_observation logs)]))
    (Some (rs ++ [log_reward logs])) (Some (acts ++ [log_action logs]))
    (Some (rows ++ [log_metrics logs])).
Proof.
  unfold view. intros [= H1 H2 H3 H4 H5] Hobs.
  rewrite on_step_end_eq. cbv zeta. rewrite H2, H3, H4, H5.
  unfold np.concatenate. destruct (log_observation logs) as [|a arrays] eqn:Ha; [done|].
  simpl. rewrite !lookup_insert_eq, H1. done.
Qed.

Lemma steps_view e steps :
  ∀ s start obs rs acts rows,
    Forall (λ l, log_episode l = e) steps →
    Forall (λ l, log_observation l ≠ []) steps →
    view e s = Buffers start (Some obs) (Some rs) (Some acts) (Some rows) →
    metrics_names (run (map StepEnd steps) s).2 = metrics_names s ∧
    view e (run (map StepEnd steps) s).2 =
    Buffers start (Some (obs ++ map (λ l, concat (log_observation l)) steps))
      (Some (rs ++ map log_reward steps)) (Some (acts ++ map log_action steps))
      (Some (rows ++ map log_metrics steps)).
Proof.
  induction steps as [|logs steps IH]; intros s start obs rs acts rows He Hobs Hview.
  - simpl. by rewrite !app_nil_r.
  - apply Forall_cons in He as [<- He]. apply Forall_cons in Hobs as [Hl Hobs].
    cbn [map]. rewrite run_cons. cbn [snd handle].
    destruct (on_step_end_view logs s start obs rs acts rows Hview Hl)
      as (_ & Hnames & Hview').
    destruct (IH _ _ _ _ _ _ He Hobs Hview') as [IHn IHv].
    split; [by rewrite IHn|]. rewrite IHv. cbn [map]. by rewrite <- !app_assoc.
Qed.

(** A summary is computed for well-formed steps and a duration that is
    not zero. *)
Lemma summary_of_well_formed names now episode t0 steps :
  well_formed names steps →
  PrimFloat.eqb (PrimFloat.sub now t0) 0 = false →
  ∃ line, summary_of (Some names) now episode (recorded_buffers t0 steps) = inr line.
Proof.
  intros (_ & (n & w & Hrows & Hw) & (n' & w' & Hobs & Hw')) Hdur.
  destruct steps as [|l steps]; [done|].
  cbn [map] in Hrows, Hobs.
  unfold summary_of, recorded_buffers.
  cbn [b_start b_observations b_rewards b_actions b_metrics need and_then map].
  destruct (format_metrics_from_spec _ n w names Hrows 0%nat Hw) as (texts & Ht & _).
  unfold format_metrics. rewrite Ht. cbn [and_then].
  unfold truediv. rewrite Hdur. cbn [and_then map np.min np.max].
  unfold np.ravel. rewrite Hobs. cbn [map and_then].
  assert (Hflat : concat (concat (log_observation l)
                          :: map (λ l0, concat (log_observation l0)) steps) ≠ []).
  { cbn [np.shape2] in Hobs.
    destruct (forallb _ _); [|done]. injection Hobs as _ <-.
    cbn [concat]. destruct (concat (log_observation l)); [simpl in Hw'; lia|].
    simpl. discriminate. }
  destruct (concat (_ :: _)) as [|x flat]; [done|].
  cbn [np.min np.max and_then]. by eexists.
Qed.

(** C3 (amended).  After an episode-begin for [episode] and any number of
    step-ends attributed to it, the buffers of the episode exist.  An
    episode-end that returns normally leaves none of them: start timestamp,
    observations, rewards, actions and metric vectors are all absent; and
    it does return normally when the steps are well formed and the
    measured duration is not zero.  An episode-end that raises, which it
    does when no step was recorded or when the measured duration is zero,
    prints nothing and leaves the state as it was. *)
Theorem episode_end_purges s episode t0 t1 steps :
  Forall (λ l, log_episode l = episode) steps →
  let before := (run (EpisodeBegin t0 episode :: map StepEnd steps) s).2 in
  let r := on_episode_end t1 episode before in
  (run (episode_calls episode t0 t1 steps) s).2 = post r ∧
  present episode before ∧
  (returned r = true → absent episode (post r)) ∧
  (∀ names,
     metrics_names s = Some names → well_formed names steps →
     PrimFloat.eqb (PrimFloat.sub t1 t0) 0 = false →
     returned r = true) ∧
  (returned r = false → post r = before ∧ printed r = []) ∧
  (steps = [] → returned r = false) ∧
  (PrimFloat.eqb (PrimFloat.sub t1 t0) 0 = true → returned r = false).
Proof.
  intros Hall. cbv zeta. unfold episode_calls.
  rewrite app_comm_cons, run_app. cbn [snd fst].
  set (before := (run (EpisodeBegin t0 episode :: map StepEnd steps) s).2).
  rewrite run_cons. cbn [snd run handle].
  set (s0 := post (on_episode_begin t0 episode s)).
  assert (Hs0 : view episode s0 =
                Buffers (Some t0) (Some []) (Some []) (Some []) (Some [])).
  { unfold s0, view. rewrite on_episode_begin_eq.
    cbn [post episode_start observations rewards actions metrics].
    by simplify_map_eq. }
  assert (Hbefore : present episode before ∧
                    episode_start before !! episode = Some t0).
  { subst before. rewrite run_cons. cbn [snd handle]. fold s0.
    destruct (view_present _ _ _ _ _ _ _ Hs0) as [H0 Hstart].
    destruct (steps_present episode steps s0 Hall H0) as [Hp He].
    split; [done|]. by rewrite He. }
  destruct Hbefore as [Hpresent Hstart].
  split; [done|]. split; [done|].
  rewrite on_episode_end_eq. unfold returned.
  split; [|split; [|split; [|split]]].
  - destruct (summary_of _ _ _ _); [done|]. intros _. apply view_purge.
  - intros names Hnames [Hobs Hwf] Hdur.
    destruct (steps_view episode steps s0 _ _ _ _ _ Hall Hobs Hs0) as [Hn Hv].
    subst before. rewrite run_cons. cbn [snd handle]. fold s0.
    rewrite Hn, Hv. unfold s0. rewrite on_episode_begin_eq. cbn [post metrics_names].
    rewrite Hnames.
    destruct (summary_of_well_formed names t1 episode t0 steps
                (conj Hobs Hwf) Hdur) as [line Hline].
    unfold recorded_buffers in Hline. cbn [app]. by rewrite Hline.
  - by destruct (summary_of _ _ _ _).
  - intros ->. subst before. cbn [map]. rewrite run_cons. cbn [run snd handle].
    fold s0. rewrite Hs0. unfold s0. rewrite on_episode_begin_eq. cbn [post metrics_names].
    by destruct (summary_of_no_steps (metrics_names s) t1 episode t0) as [err ->].
  - intros Hzero.
    destruct (summary_of_zero_duration (metrics_names before) t1 episode
                (view episode before) t0 Hstart Hzero) as [err [-> _]].
    done.
Qed.

(** C7 (amended).  The division that gives the steps per second is not
    guarded.  When the measured duration is zero, [on_episode_end] raises:
    it prints no summary line and leaves the state, buffers included, as
    it was; the exception is [ZeroDivisionError] whenever the reads before
    the division succeed. *)
Theorem zero_duration_raises s episode now start :
  episode_start s !! episode = Some start →
  PrimFloat.eqb (PrimFloat.sub now start) 0 = true →
  ∃ err,
    on_episode_end now episode s = Reply (inl err) s [] ∧
    ∀ obs rows names text,
      observations s !! episode = Some obs →
      metrics s !! episode = Some rows →
      metrics_names s = Some names →
      format_metrics names rows = inr text →
      err = ZeroDivisionError.
Proof.
  intros Hstart Hzero.
  destruct (summary_of_zero_duration (metrics_names s) now episode
              (view episode s) start Hstart Hzero) as [err [Hsum Herr]].
  exists err. rewrite on_episode_end_eq, Hsum. split; [done|].
  intros obs rows names text Hobs Hrows Hnames Htext.
  by apply (Herr obs rows names text).
Qed.

(** Everything that holds when a summary was computed. *)
Lemma summary_of_inv names now episode b line :
  summary_of names now episode b = inr line →
  ∃ start obs rs acts rows ns text sps rmin rmax amin amax flat omin omax,
    b = Buffers (Some start) (Some obs) (Some rs) (Some acts) (Some rows) ∧
    names = Some ns ∧
    format_metrics ns rows = inr text ∧
    truediv (float_of_Z (Z.of_nat (length obs))) (PrimFloat.sub now start) = inr sps ∧
    np.min rs = inr rmin ∧ np.max rs = inr rmax ∧
    np.min acts = inr amin ∧ np.max acts = inr amax ∧
    np.ravel obs = inr flat ∧
    np.min flat = inr omin ∧ np.max flat = inr omax ∧
    line = template_format
             (Variables (episode + 1) (PrimFloat.sub now start) (length obs) sps
                (np.sum rs) (np.mean rs) rmin rmax
                (np.mean acts) amin amax
                (np.mean flat) omin omax text).
Proof.
  unfold summary_of. destruct b as [[start|] [obs|] [rs|] [acts|] [rows|]];
    cbn [b_start b_observations b_rewards b_actions b_metrics need and_then];
    try done.
  - destruct names as [ns|]; cbn [and_then]; [|done].
    destruct (format_metrics ns rows) as [e|text] eqn:Hfmt; cbn [and_then]; [done|].
    destruct (truediv _ _) as [e|sps] eqn:Hsps; cbn [and_then]; [done|].
    destruct (np.min rs) as [e|rmin] eqn:Hrmin; cbn [and_then]; [done|].
    destruct (np.max rs) as [e|rmax] eqn:Hrmax; cbn [and_then]; [done|].
    destruct (np.min acts) as [e|amin] eqn:Hamin; cbn [and_then]; [done|].
    destruct (np.max acts) as [e|amax] eqn:Hamax; cbn [and_then]; [done|].
    destruct (np.ravel obs) as [e|flat] eqn:Hflat; cbn [and_then]; [done|].
    destruct (np.min flat) as [e|omin] eqn:Homin; cbn [and_then]; [done|].
    destruct (np.max flat) as [e|omax] eqn:Homax; cbn [and_then]; [done|].
    intros [= <-].
    exists start, obs, rs, acts, rows, ns, text, sps, rmin, rmax, amin, amax,
      flat, omin, omax.
    repeat split; done.
  - destruct names as [ns|]; cbn [and_then]; [|done].
    destruct (format_metrics ns rows); cbn [and_then]; [done|].
    destruct (truediv _ _); cbn [and_then]; [done|].
    destruct (np.min rs); cbn [and_then]; [done|].
    by destruct (np.max rs).
  - destruct names as [ns|]; cbn [and_then]; [|done].
    destruct (format_metrics ns rows); cbn [and_then]; [done|].
    by destruct (truediv _ _).
  - destruct names as [ns|]; cbn [and_then]; [|done].
    destruct (format_metrics ns rows); cbn [and_then]; [done|].
    by destruct (truediv _ _).
Qed.

(** The line [on_episode_end] prints, when it prints one, is the summary. *)
Lemma on_episode_end_printed now episode s line :
  printed (on_episode_end now episode s) = [line] →
  summary_of (metrics_names s) now episode (view episode s) = inr line.
Proof.
  rewrite on_episode_end_eq. destruct (summary_of _ _ _ _); [done|].
  by intros [= ->].
Qed.

Lemma string_app_assoc (a b c : string) : (a +:+ b) +:+ c = a +:+ (b +:+ c).
Proof.
  induction a as [|ch a IH]; [done|].
  change (String ch ((a +:+ b) +:+ c) = String ch (a +:+ (b +:+ c))).
  by rewrite IH.
Qed.

Lemma string_prefix_step (a rest tail : string) :
  (∃ front, rest = front +:+ tail) → ∃ front, a +:+ rest = front +:+ tail.
Proof. intros [front ->]. exists (a +:+ front). by rewrite string_app_assoc. Qed.

(** The pieces of the metrics text are joined by a comma and a space. *)
Lemma join_concat texts : join texts = String.concat ", " texts.
Proof.
  induction texts as [|t [|t' texts] IH]; [done|done|].
  cbn [join String.concat] in *. by rewrite IH.
Qed.

(** C8 (amended).  When the metric vectors recorded for the episode all
    have the same width, at least that of the list of metric names, the
    summary ends with the metrics, each next to its name, separated by a
    comma and a space.  A metric is rendered as the placeholder [--] when
    [np.nanmean] warns for its column and as the mean of the column, NaNs
    left out, with six decimals when it does not.  It warns for a column in
    which every value is NaN, and also for a column that holds both
    infinities, although not every value in it is NaN.  The rendering of
    one metric does not affect the others. *)
Theorem all_nan_metric_placeholder s episode now rows names n w :
  metrics s !! episode = Some rows →
  metrics_names s = Some names →
  np.shape2 rows = Some (n, w) →
  (length names ≤ w)%nat →
  ∃ texts,
    format_metrics names rows = inr (String.concat ", " texts) ∧
    length texts = length names ∧
    (∀ idx name, names !! idx = Some name →
       let col := map (λ r, nth idx r nan) rows in
       texts !! idx =
         Some (if (np.nanmean col).2
               then name +:+ ": --"
               else name +:+ ": " +:+ fmt.f 6 (np.nanmean col).1) ∧
       (forallb np.isnan col = true → texts !! idx = Some (name +:+ ": --")) ∧
       (infinity ∈ col → neg_infinity ∈ col →
        texts !! idx = Some (name +:+ ": --"))) ∧
    (∀ line, printed (on_episode_end now episode s) = [line] →
       ∃ front, line = front +:+ "], " +:+ String.concat ", " texts).
Proof.
  intros Hrows Hnames Hshape Hw.
  destruct (format_metrics_from_spec rows n w names Hshape 0%nat Hw)
    as (texts & Htexts & Hlen & Hidx).
  exists texts. unfold format_metrics. rewrite Htexts, join_concat.
  split; [done|]. split; [done|]. split.
  - intros idx name Hname. cbv zeta.
    set (col := map (λ r, nth idx r nan) rows).
    assert (Hcol : texts !! idx =
                   Some (if (np.nanmean col).2
                         then name +:+ ": --"
                         else name +:+ ": " +:+ fmt.f 6 (np.nanmean col).1)).
    { rewrite (Hidx idx name Hname). reflexivity. }
    split; [exact Hcol|]. split.
    + intros Hnan. by rewrite Hcol, (nanmean_empty_slice _ Hnan).
    + intros Hpos Hneg. by rewrite Hcol, (nanmean_invalid _ Hpos Hneg).
  - intros line Hline. apply on_episode_end_printed in Hline.
    apply summary_of_inv in Hline
      as (start & obs & rs & acts & rows' & ns & text & sps & rmin & rmax & amin
          & amax & flat & omin & omax & Hb & Hns & Hfmt & _ & _ & _ & _ & _ & _
          & _ & _ & ->).
    unfold view in Hb. injection Hb as _ _ _ _ Hb. rewrite Hrows in Hb.
    injection Hb as <-. rewrite Hnames in Hns. injection Hns as <-.
    unfold format_metrics in Hfmt. rewrite Htexts, join_concat in Hfmt.
    injection Hfmt as <-.
    unfold template_format. cbn [v_metrics].
    repeat (first [by exists "" | apply string_prefix_step]).
Qed.

(** C9.  The line printed at the end of an episode has its fields in the
    order of the template: the episode number counted from one, the
    duration with three decimals, the step count as an integer, the steps
    per second with no decimal, then the total, mean, minimum and maximum
    reward, the mean, minimum and maximum action and observation, all with
    three decimals, and the metrics; the values are the ones numpy's
    reductions return for the recorded rewards, actions and observations.
    For the rewards [1.0, 2.0, 3.0] over three steps and a duration of 2.0
    seconds, numpy returning 6.0, 1.0 and 3.0 for their sum, minimum and
    maximum, it reads
    [2.000s, steps: 3, steps per second: 2, episode reward: 6.000,
    reward: 2.000 [1.000, 3.000]]. *)
Theorem summary_line_format s episode now line :
  printed (on_episode_end now episode s) = [line] →
  (∃ start obs rs acts flat sps rmin rmax amin amax omin omax text,
     episode_start s !! episode = Some start ∧
     observations s !! episode = Some obs ∧
     rewards s !! episode = Some rs ∧
     actions s !! episode = Some acts ∧
     np.ravel obs = inr flat ∧
     truediv (float_of_Z (Z.of_nat (length obs))) (PrimFloat.sub now start) = inr sps ∧
     np.min rs = inr rmin ∧ np.max rs = inr rmax ∧
     np.min acts = inr amin ∧ np.max acts = inr amax ∧
     np.min flat = inr omin ∧ np.max flat = inr omax ∧
     line =
       "Episode " +:+ fmt.int (episode + 1)
       +:+ ": " +:+ fmt.f 3 (PrimFloat.sub now start)
       +:+ "s, steps: " +:+ fmt.int (Z.of_nat (length obs))
       +:+ ", steps per second: " +:+ fmt.f 0 sps
       +:+ ", episode reward: " +:+ fmt.f 3 (np.sum rs)
       +:+ ", reward: " +:+ fmt.f 3 (PrimFloat.div (np.sum rs) (np.count rs))
       +:+ " [" +:+ fmt.f 3 rmin +:+ ", " +:+ fmt.f 3 rmax
       +:+ "], action: " +:+ fmt.f 3 (PrimFloat.div (np.sum acts) (np.count acts))
       +:+ " [" +:+ fmt.f 3 amin +:+ ", " +:+ fmt.f 3 amax
       +:+ "], observations: " +:+ fmt.f 3 (PrimFloat.div (np.sum flat) (np.count flat))
       +:+ " [" +:+ fmt.f 3 omin +:+ ", " +:+ fmt.f 3 omax
       +:+ "], " +:+ text) ∧
  (∀ start obs,
     episode_start s !! episode = Some start →
     observations s !! episode = Some obs →
     rewards s !! episode = Some [1%float; 2%float; 3%float] →
     PrimFloat.sub now start = 2%float →
     length obs = 3%nat →
     np.sum [1%float; 2%float; 3%float] = 6%float →
     np.min [1%float; 2%float; 3%float] = inr 1%float →
     np.max [1%float; 2%float; 3%float] = inr 3%float →
     ∃ rest,
       line =
         "Episode " +:+ fmt.int (episode + 1)
         +:+ ": 2.000s, steps: 3, steps per second: 2, episode reward: 6.000, reward: 2.000 [1.000, 3.000], action: "
         +:+ rest).
Proof.
  intros Hline. apply on_episode_end_printed in Hline.
  apply summary_of_inv in Hline
    as (start & obs & rs & acts & rows & ns & text & sps & rmin & rmax & amin
        & amax & flat & omin & omax & Hb & Hns & Hfmt & Hsps & Hrmin & Hrmax
        & Hamin & Hamax & Hflat & Homin & Homax & ->).
  unfold view in Hb. injection Hb as Hstart Hobs Hrs Hacts Hrows.
  split.
  - exists start, obs, rs, acts, flat, sps, rmin, rmax, amin, amax, omin, omax, text.
    repeat split; done.
  - intros start' obs' Hstart' Hobs' Hrs' Hdur Hlen Hsum Hmin Hmax.
    rewrite Hstart in Hstart'. injection Hstart' as <-.
    rewrite Hobs in Hobs'. injection Hobs' as <-.
    rewrite Hrs in Hrs'. injection Hrs' as ->.
    rewrite Hdur, Hlen in Hsps. rewrite Hdur, Hlen.
    assert (sps = 1.5%float) as -> by (vm_compute in Hsps; congruence).
    assert (rmin = 1%float) as -> by congruence.
    assert (rmax = 3%float) as -> by congruence.
    unfold template_format, np.mean.
    cbn [v_episode v_duration v_steps v_sps v_episode_reward v_reward
         v_reward_min v_reward_max v_action v_action_min v_action_max
         v_obs v_obs_min v_obs_max v_metrics].
    rewrite Hsum.
    replace (fmt.f 3 2) with "2.000" by (by vm_compute).
    replace (fmt.int (Z.of_nat 3)) with "3" by (by vm_compute).
    replace (fmt.f 0 1.5) with "2" by (by vm_compute).
    replace (fmt.f 3 6) with "6.000" by (by vm_compute).
    replace (fmt.f 3 (PrimFloat.div 6 (np.count [1%float; 2%float; 3%float])))
      with "2.000" by (by vm_compute).
    replace (fmt.f 3 1) with "1.000" by (by vm_compute).
    replace (fmt.f 3 3) with "3.000" by (by vm_compute).
    eexists. reflexivity.
Qed.

End TrainEpisodeLoggerFacts.

(** ** The interval logger *)

Section TrainIntervalLoggerFacts.
Import TrainIntervalLogger.
Context `{N : np.reductions}.
Implicit Types (s : state) (logs : step_logs).

Lemma interval_step_begin_eq now s :
  on_step_begin now s =
  if interval s =? 0 then Reply (inl ZeroDivisionError) s []
  else if steps s mod interval s =? 0
       then Reply (inr ()) (fresh_window now s)
              [interval_marker (steps s) (interval s)]
       else Reply (inr ()) s [].
Proof.
  unfold on_step_begin. rewrite bind_read, bind_lift. unfold py_mod, id.
  destruct (interval s =? 0); [done|].
  destruct (steps s mod interval s =? 0); [|done].
  unfold reset. rewrite bind_write. reflexivity.
Qed.

(** C5.  A step-begin resets the window exactly when the step counter is a
    multiple of the window size: the reset takes a new start timestamp and
    a new progress bar, empties the metric buffer and prints one line, the
    interval marker; in it the interval number, a float, is the quotient
    of the step counter by the window size plus one, written with [.0]
    (for a quotient below 2^53 in magnitude).  Otherwise nothing changes
    and nothing is printed.
    With a window of 10 the counter 0 resets and prints
    [Interval 1.0 (0 steps performed)], the counter 10 resets and prints
    [Interval 2.0 (10 steps performed)], and the counter 9 does not
    reset. *)
Theorem window_reset_on_multiples now s :
  interval s ≠ 0 →
  ((interval s | steps s) →
   ret (on_step_begin now s) = inr () ∧
   post (on_step_begin now s) =
     State (interval s) (steps s) now (new_progbar (interval s)) []
       (train_start s) (metrics_names s) ∧
   (∃ marker, printed (on_step_begin now s) = [marker]) ∧
   (Z.abs (steps s / interval s) < 2 ^ 53 →
    printed (on_step_begin now s) =
      ["Interval " +:+ fmt.int (steps s / interval s + 1) +:+ ".0 ("
       +:+ fmt.int (steps s) +:+ " steps performed)"])) ∧
  (¬ (interval s | steps s) → on_step_begin now s = Reply (inr ()) s []) ∧
  (interval s = 10 →
   (steps s = 0 →
    on_step_begin now s =
    Reply (inr ())
      (State 10 0 now (new_progbar 10) [] (train_start s) (metrics_names s))
      ["Interval 1.0 (0 steps performed)"]) ∧
   (steps s = 10 →
    on_step_begin now s =
    Reply (inr ())
      (State 10 10 now (new_progbar 10) [] (train_start s) (metrics_names s))
      ["Interval 2.0 (10 steps performed)"]) ∧
   (steps s = 9 → on_step_begin now s = Reply (inr ()) s [])).
Proof.
  intros Hi. rewrite interval_step_begin_eq.
  destruct (Z.eqb_spec (interval s) 0) as [?|_]; [done|].
  split; [|split].
  - intros Hdiv. apply Z.mod_divide in Hdiv; [|done]. rewrite Hdiv.
    cbn [Z.eqb ret post printed]. repeat split; by eexists.
  - intros Hdiv. destruct (Z.eqb_spec (steps s mod interval s) 0) as [H0|_]; [|done].
    destruct Hdiv. by apply Z.mod_divide.
  - intros H10. unfold fresh_window. rewrite H10. split; [|split].
    + by intros ->.
    + by intros ->.
    + by intros ->.
Qed.

Lemma nanmean_axis0_lookup buffer ms idx mean :
  np.nanmean_axis0 buffer = inr ms →
  ms !! idx = Some mean →
  mean = running_mean buffer idx.
Proof.
  unfold np.nanmean_axis0, running_mean.
  destruct buffer as [|row buffer]; [done|].
  destruct (np.shape2 (row :: buffer)) as [[n w]|]; [|done].
  intros [= <-] Hidx. rewrite list_lookup_fmap in Hidx.
  destruct (seq 0 w !! idx) as [j|] eqn:Hj; [|done].
  apply lookup_seq in Hj as [-> _]. simpl in Hidx. by injection Hidx.
Qed.

(** The loop substitutes the running mean of the column for every NaN and
    keeps every other value. *)
Lemma filter_metrics_spec buffer names values :
  ∀ idx0 means filtered,
    (∀ ms, means = Some ms → np.nanmean_axis0 buffer = inr ms) →
    filter_metrics buffer names idx0 values means = inr filtered →
    filtered =
    imap (λ i value,
            if np.isnan value then running_mean buffer (idx0 + i) else value)
         values.
Proof.
  induction values as [|value values IH]; intros idx0 means filtered Hmeans;
    cbn [filter_metrics].
  { by intros [= <-]. }
  rewrite imap_cons, Nat.add_0_r.
  assert (Hshift : ∀ l : list float,
    imap ((λ i v, if np.isnan v then running_mean buffer (idx0 + i) else v) ∘ S) l =
    imap (λ i v, if np.isnan v then running_mean buffer (S idx0 + i) else v) l).
  { intros l. apply imap_ext. intros i v _. simpl.
    by replace (idx0 + S i)%nat with (S (idx0 + i)) by lia. }
  rewrite Hshift.
  destruct (np.isnan value) eqn:Hnan; cbn [negb].
  - destruct buffer as [|row buffer]; cbn [length Nat.ltb Nat.leb].
    + destruct (filter_metrics [] names (S idx0) values means) as [e|fs] eqn:Hfs;
        [done|].
      intros [= <-]. by rewrite (IH _ _ _ Hmeans Hfs).
    + destruct (column_means (row :: buffer) names means) as [e|ms] eqn:Hms; [done|].
      assert (Hax : np.nanmean_axis0 (row :: buffer) = inr ms).
      { unfold column_means in Hms. destruct means as [ms'|].
        - injection Hms as <-. by apply Hmeans.
        - destruct (np.nanmean_axis0 (row :: buffer)) as [e|ms']; [done|].
          destruct names as [ns|]; [|done].
          destruct (Nat.eqb _ _); [|done]. by injection Hms as <-. }
      destruct (ms !! idx0) as [mean|] eqn:Hmean; [|done].
      destruct (filter_metrics (row :: buffer) names (S idx0) values (Some ms))
        as [e|fs] eqn:Hfs; [done|].
      intros [= <-].
      rewrite (nanmean_axis0_lookup _ _ _ _ Hax Hmean).
      f_equal. apply (IH (S idx0) (Some ms)); [|done].
      by intros ms' [= <-].
  - destruct (filter_metrics buffer names (S idx0) values means) as [e|fs] eqn:Hfs;
      [done|].
    intros [= <-]. by rewrite (IH _ _ _ Hmeans Hfs).
Qed.

(** The loop ends without an exception when nothing is buffered, and when
    the buffered vectors and the received one fit the metric names. *)
Lemma filter_metrics_empty names values :
  ∀ idx0 means, ∃ filtered, filter_metrics [] names idx0 values means = inr filtered.
Proof.
  induction values as [|value values IH]; intros idx0 means; cbn [filter_metrics].
  { by eexists. }
  destruct (IH (S idx0) means) as [fs ->].
  destruct (negb (np.isnan value)); cbn [length Nat.ltb Nat.leb]; by eexists.
Qed.

Lemma filter_metrics_returns buffer ns ms values :
  buffer ≠ [] →
  np.nanmean_axis0 buffer = inr ms →
  length ms = length ns →
  ∀ idx0 means,
    means = None ∨ means = Some ms →
    (idx0 + length values ≤ length ms)%nat →
    ∃ filtered, filter_metrics buffer (Some ns) idx0 values means = inr filtered.
Proof.
  intros Hne Hax Hlen.
  induction values as [|value values IH]; intros idx0 means Hmeans Hidx;
    cbn [filter_metrics].
  { by eexists. }
  cbn [length] in Hidx.
  destruct (negb (np.isnan value)).
  - destruct (IH (S idx0) means Hmeans) as [fs ->]; [lia|]. by eexists.
  - destruct buffer as [|row buffer]; [done|]. cbn [length Nat.ltb Nat.leb].
    assert (Hcm : column_means (row :: buffer) (Some ns) means = inr ms).
    { unfold column_means. destruct Hmeans as [-> | ->]; [|done].
      rewrite Hax. by rewrite Hlen, Nat.eqb_refl. }
    rewrite Hcm.
    destruct (lookup_lt_is_Some_2 ms idx0) as [mean ->]; [lia|].
    destruct (IH (S idx0) (Some ms)) as [fs ->]; [by right|lia|]. by eexists.
Qed.

Lemma nanmean_axis0_shape buffer n w :
  np.shape2 buffer = Some (n, w) →
  ∃ ms, np.nanmean_axis0 buffer = inr ms ∧ length ms = w.
Proof.
  intros H. unfold np.nanmean_axis0. rewrite H. eexists. split; [done|].
  by rewrite length_map, length_seq.
Qed.

(** What [on_step_end] does once the loop has produced [filtered]. *)
Lemma interval_step_end_eq logs s :
  on_step_end logs s =
  match filter_metrics (metrics s) (metrics_names s) 0 (log_metrics logs) None with
  | inl e => Reply (inl e) s []
  | inr filtered =>
      match (if existsb np.isnan filtered then Some []
             else option_map (λ names, zip names filtered) (metrics_names s)) with
      | None => Reply (inl (AttributeError "metrics_names")) s []
      | Some named =>
          if interval s =? 0 then Reply (inl ZeroDivisionError) s []
          else
            Reply (inr ())
              (State (interval s) (steps s + 1) (interval_start s)
                 (update (steps s mod interval s + 1)
                    (("reward", log_reward logs) :: named) (progbar s))
                 (metrics s ++ [log_metrics logs])
                 (train_start s) (metrics_names s)) []
      end
  end.
Proof.
  unfold on_step_end. rewrite bind_read, bind_lift. unfold id.
  destruct (filter_metrics _ _ _ _ _) as [e|filtered]; [done|].
  rewrite bind_eq.
  destruct (existsb np.isnan filtered).
  - cbn [ret post printed mret py_mret py_ret app].
    rewrite reply_eta, bind_lift. unfold py_mod.
    destruct (interval s =? 0); [done|].
    rewrite !bind_write. reflexivity.
  - unfold get_metrics_names. rewrite bind_field.
    destruct (metrics_names s) as [names|] eqn:Hnames; [|done].
    cbn [ret post printed mret py_mret py_ret app option_map].
    rewrite reply_eta, bind_lift. unfold py_mod.
    destruct (interval s =? 0); [done|].
    rewrite !bind_write. cbn [metrics_names]. rewrite Hnames. reflexivity.
Qed.

(** C6.  In a step-end every NaN metric is shown as the mean of its column
    over the vectors buffered in the window, NaNs left out, and as NaN when
    the buffer is empty; the other metrics keep their value; and the vector
    appended to the buffer is the one received, NaNs included.  The call
    returns when the window size is positive and the buffer is empty or the
    buffered vectors and the received one fit the metric names.  With a
    positive window size, the buffer [[1.0, NaN]] and the metrics
    [NaN, 2.0], the mean of the first column being the only value in it,
    1.0, the progress bar receives 1.0 and 2.0 and the buffer becomes
    [[1.0, NaN], [NaN, 2.0]]. *)
Theorem step_end_nan_substitution logs s :
  (∀ filtered,
     filter_metrics (metrics s) (metrics_names s) 0 (log_metrics logs) None
     = inr filtered →
     filtered =
     imap (λ idx value,
             if np.isnan value then running_mean (metrics s) idx else value)
          (log_metrics logs)) ∧
  (returned (on_step_end logs s) = true →
   metrics (post (on_step_end logs s)) = metrics s ++ [log_metrics logs] ∧
   steps (post (on_step_end logs s)) = steps s + 1) ∧
  (∀ names,
     metrics_names s = Some names →
     0 < interval s →
     metrics s = [] ∨
     (∃ n, np.shape2 (metrics s) = Some (n, length names)) ∧
     (length (log_metrics logs) ≤ length names)%nat →
     returned (on_step_end logs s) = true) ∧
  (∀ name0 name1,
     metrics s = [[1%float; nan]] →
     log_metrics logs = [nan; 2%float] →
     metrics_names s = Some [name0; name1] →
     0 < interval s →
     np.sum [1%float] = 1%float →
     on_step_end logs s =
     Reply (inr ())
       (State (interval s) (steps s + 1) (interval_start s)
          (update (steps s mod interval s + 1)
             [("reward", log_reward logs); (name0, 1%float); (name1, 2%float)]
             (progbar s))
          [[1%float; nan]; [nan; 2%float]]
          (train_start s) (metrics_names s)) []).
Proof.
  split; [|split; [|split]].
  - intros filtered Hf.
    by apply (filter_metrics_spec (metrics s) (metrics_names s) _ 0%nat None).
  - rewrite interval_step_end_eq. unfold returned.
    destruct (filter_metrics _ _ _ _ _); [done|].
    destruct (if existsb np.isnan _ then _ else _); [|done].
    by destruct (interval s =? 0).
  - intros names Hnames Hi Hfit.
    rewrite interval_step_end_eq, Hnames. unfold returned.
    assert (Hf : ∃ filtered,
      filter_metrics (metrics s) (Some names) 0 (log_metrics logs) None
      = inr filtered).
    { destruct Hfit as [-> | [[n Hshape] Hlen]].
      - apply filter_metrics_empty.
      - destruct (nanmean_axis0_shape _ _ _ Hshape) as (ms & Hax & Hms).
        apply (filter_metrics_returns (metrics s) names ms); try done.
        + intros Hnil. by rewrite Hnil in Hshape.
        + by left.
        + simpl. lia. }
    destruct Hf as [filtered ->]. cbn [option_map].
    destruct (existsb np.isnan filtered);
      destruct (Z.eqb_spec (interval s) 0); done || lia.
  - intros name0 name1 Hbuf Hlogs Hnames Hi Hsum.
    rewrite interval_step_end_eq, Hbuf, Hlogs, Hnames.
    destruct (Z.eqb_spec (interval s) 0) as [?|_]; [lia|].
    simpl. rewrite Hsum. reflexivity.
Qed.

End TrainIntervalLoggerFacts.

(** ** The properties on the sample objects and runs *)

Section CallbackListSamples.
Import CallbackList.

(** A list that mixes a Keras callback and a callback of this library
    calls [on_epoch_begin] on the first and then [on_episode_begin] on the
    second, which finds the world the first left. *)
Lemma dispatch_per_callback_witness :
  on_event episode_begin demo.mixed 7 () [] =
  Outcome None ["keras: epoch begin"; "rl: episode begin"]
    [Call 0 "on_epoch_begin" 7 (); Call 1 "on_episode_begin" 7 ()].
Proof.
  destruct (dispatch_per_callback episode_begin demo.mixed 7 () [])
    as (_ & _ & _ & Hstep & -> & _).
  change (length (callbacks demo.mixed)) with 2%nat.
  rewrite (Hstep 1%nat demo.rl_style (demo.note "rl: episode begin")).
  - vm_compute. reflexivity.
  - reflexivity.
  - vm_compute. reflexivity.
  - vm_compute. reflexivity.
Defined.

(** C1, as stated, fails for the beginning of a run: an object that exposes
    the new-convention and the legacy methods is sent neither; the dispatch
    looks for [on_train_begin] and raises [AttributeError].  An object that
    has an [on_train_begin] is sent the log dictionary alone, not an index
    and the log dictionary: the outcome is that of the call with one
    argument. *)
Lemma run_begin_not_by_capability :
  callable (samples.units_only !! "on_episode_begin") = true ∧
  callable (samples.units_only !! "on_epoch_begin") = true ∧
  (∀ call_with_logs,
     on_train_begin call_with_logs {| callbacks := [samples.units_only] |} () [] =
     (Some (AttributeError "on_train_begin"), [])) ∧
  (∀ call_with_logs,
     on_train_begin call_with_logs {| callbacks := [samples.with_train_begin] |} () [] =
     match call_with_logs (demo.note "train begin") () [] with
     | (Some e, w') => (Some e, w')
     | (None, w') => (None, w')
     end).
Proof. repeat split. Qed.

(** An object with neither method, second in the list, stops the dispatch
    with an [AttributeError] after the first callback was called. *)
Lemma dispatch_missing_method_witness :
  callbacks demo.broken !! 1%nat = Some demo.bare ∧
  exposes_neither episode_begin demo.bare ∧
  on_event episode_begin demo.broken 7 () [] =
  Outcome (Some (AttributeError "on_epoch_begin")) ["keras: epoch begin"]
    [Call 0 "on_epoch_begin" 7 ()].
Proof.
  assert (H1 : callbacks demo.broken !! 1%nat = Some demo.bare) by reflexivity.
  assert (H2 : exposes_neither episode_begin demo.bare)
    by (split; vm_compute; reflexivity).
  split; [exact H1|]. split; [exact H2|].
  rewrite (proj2 (dispatch_missing_method episode_begin demo.broken 7 () [] 1
                    demo.bare H1 H2)).
  - vm_compute. reflexivity.
  - vm_compute. reflexivity.
Defined.

End CallbackListSamples.

Section TrainEpisodeLoggerSamples.
Import TrainEpisodeLogger.
#[local] Existing Instance np_sample.numpy.

(** Episode 4, with three steps between times 10.0 and 12.0, leaves no
    buffer. *)
Lemma episode_end_purges_witness :
  Forall (λ l, log_episode l = 4) demo.three_steps ∧
  absent 4 (run (episode_calls 4 10%float 12%float demo.three_steps) demo.trained).2.
Proof.
  assert (H : Forall (λ l, log_episode l = 4) demo.three_steps)
    by (repeat constructor).
  split; [exact H|].
  destruct (episode_end_purges demo.trained 4 10%float 12%float demo.three_steps H)
    as (-> & _ & Hpurged & Hreturns & _).
  apply Hpurged. apply (Hreturns ["loss"; "mae"]).
  - reflexivity.
  - split; [by repeat constructor|].
    split; [exists 3%nat, 2%nat|exists 3%nat, 3%nat]; split; try reflexivity;
      simpl; lia.
  - reflexivity.
Defined.

(** C3, as stated, fails: an episode-begin followed at once by the
    episode-end, with no step in between, leaves the buffers of the
    episode in place, because the episode-end raises before it frees
    them. *)
Lemma episode_end_without_steps_keeps_buffers :
  ¬ (∀ s episode t0 t1 steps,
       Forall (λ l, log_episode l = episode) steps →
       absent episode (run (episode_calls episode t0 t1 steps) s).2).
Proof.
  intros H.
  specialize (H demo.trained 4 10%float 12%float [] (Forall_nil_2 _)).
  vm_compute in H. discriminate H.
Qed.

(** The calls of episodes 0 and 1, merged, print for episode 0 what its
    calls print alone. *)
Lemma interleaved_episodes_independent_witness :
  (0 : Z) ≠ 1 ∧
  Forall (λ ev, event_episode ev = 0) demo.calls0 ∧
  Forall (λ ev, event_episode ev = 1) demo.calls1 ∧
  interleaving demo.calls0 demo.calls1 demo.merged ∧
  filter (λ o, about o = 0) (run demo.merged demo.trained).1 =
    (run demo.calls0 demo.trained).1 ∧
  view 0 (run demo.merged demo.trained).2 = view 0 (run demo.calls0 demo.trained).2.
Proof.
  assert (Hne : (0 : Z) ≠ 1) by discriminate.
  assert (H0 : Forall (λ ev, event_episode ev = 0) demo.calls0)
    by (repeat constructor).
  assert (H1 : Forall (λ ev, event_episode ev = 1) demo.calls1)
    by (repeat constructor).
  assert (Hm : interleaving demo.calls0 demo.calls1 demo.merged).
  { apply interleaving_left, interleaving_right, interleaving_left,
      interleaving_right, interleaving_left, interleaving_left,
      interleaving_right, interleaving_nil. }
  split; [exact Hne|]. split; [exact H0|]. split; [exact H1|]. split; [exact Hm|].
  exact (interleaved_episodes_independent 0 1 demo.calls0 demo.calls1 demo.merged
           demo.trained Hne H0 H1 Hm).
Defined.

(** With the end of episode 4 at the time of its begin, no summary is
    printed. *)
Lemma zero_duration_raises_witness :
  episode_start demo.recorded !! 4 = Some 10%float ∧
  PrimFloat.eqb (PrimFloat.sub 10 10) 0 = true ∧
  ∃ err,
    on_episode_end 10%float 4 demo.recorded = Reply (inl err) demo.recorded [] ∧
    ∀ obs rows names text,
      observations demo.recorded !! 4 = Some obs →
      metrics demo.recorded !! 4 = Some rows →
      metrics_names demo.recorded = Some names →
      format_metrics names rows = inr text →
      err = ZeroDivisionError.
Proof.
  assert (H1 : episode_start demo.recorded !! 4 = Some 10%float)
    by (vm_compute; reflexivity).
  assert (H2 : PrimFloat.eqb (PrimFloat.sub 10 10) 0 = true) by reflexivity.
  split; [exact H1|]. split; [exact H2|].
  exact (zero_duration_raises demo.recorded 4 10%float 10%float H1 H2).
Defined.

(** C7, as stated, fails: with a duration of zero the division raises
    [ZeroDivisionError] and no summary line is printed. *)
Lemma zero_duration_crashes_summary :
  PrimFloat.sub 10 10 = 0%float ∧
  episode_start demo.recorded !! 4 = Some 10%float ∧
  ret (on_episode_end 10%float 4 demo.recorded) = inl ZeroDivisionError ∧
  printed (on_episode_end 10%float 4 demo.recorded) = [].
Proof. vm_compute. repeat split; reflexivity. Qed.

(** In the recorded episode the first metric is never a number and the
    second always is: the summary ends with [loss: --, mae: 2.333333]. *)
Lemma all_nan_metric_placeholder_witness :
  metrics demo.recorded !! 4 =
    Some [[nan; 1%float]; [nan; 2%float]; [nan; 4%float]] ∧
  metrics_names demo.recorded = Some ["loss"; "mae"] ∧
  np.shape2 [[nan; 1%float]; [nan; 2%float]; [nan; 4%float]] = Some (3%nat, 2%nat) ∧
  (length ["loss"; "mae"] ≤ 2)%nat ∧
  format_metrics ["loss"; "mae"] [[nan; 1%float]; [nan; 2%float]; [nan; 4%float]]
    = inr "loss: --, mae: 2.333333" ∧
  printed (on_episode_end 12%float 4 demo.recorded) =
    ["Episode 5: 2.000s, steps: 3, steps per second: 2, episode reward: 6.000, reward: 2.000 [1.000, 3.000], action: 0.667 [0.000, 1.000], observations: 2.000 [1.000, 3.000], loss: --, mae: 2.333333"].
Proof.
  assert (H1 : metrics demo.recorded !! 4 =
               Some [[nan; 1%float]; [nan; 2%float]; [nan; 4%float]])
    by (vm_compute; reflexivity).
  assert (H2 : metrics_names demo.recorded = Some ["loss"; "mae"])
    by (vm_compute; reflexivity).
  assert (H3 : np.shape2 [[nan; 1%float]; [nan; 2%float]; [nan; 4%float]]
               = Some (3%nat, 2%nat)) by reflexivity.
  assert (H4 : (length ["loss"; "mae"] ≤ 2)%nat) by (simpl; lia).
  split; [exact H1|]. split; [exact H2|]. split; [exact H3|]. split; [exact H4|].
  destruct (all_nan_metric_placeholder demo.recorded 4 12%float _ _ _ _ H1 H2 H3 H4)
    as (texts & Hfmt & Hlen & Hidx & Hline).
  destruct texts as [|loss [|mae [|more texts]]]; try discriminate Hlen.
  destruct (Hidx 0%nat "loss" eq_refl) as (_ & Hloss & _).
  specialize (Hloss eq_refl). injection Hloss as ->.
  destruct (Hidx 1%nat "mae" eq_refl) as (Hmae & _).
  vm_compute in Hmae. injection Hmae as ->.
  split; [exact Hfmt|].
  vm_compute. reflexivity.
Defined.

(** C8, as stated, fails: a metric that is plus infinity in one step and
    minus infinity in the next is a number in every step, yet the summary
    shows the placeholder for it, because [np.nanmean] warns of an invalid
    value and every warning is turned into the placeholder. *)
Lemma infinite_metric_placeholder :
  metrics samples.infinite_loss !! 4 =
    Some [[infinity; 1%float]; [neg_infinity; 2%float]] ∧
  forallb np.isnan [infinity; neg_infinity] = false ∧
  printed (on_episode_end 12%float 4 samples.infinite_loss) =
    ["Episode 5: 2.000s, steps: 2, steps per second: 1, episode reward: 3.000, reward: 1.500 [1.000, 2.000], action: 0.500 [0.000, 1.000], observations: 2.000 [1.000, 3.000], loss: --, mae: 1.500000"].
Proof. vm_compute. repeat split; reflexivity. Qed.

(** The summary of the recorded episode, ended at time 12.0, and that of an
    episode with the same rewards in another order. *)
Lemma summary_line_format_witness :
  printed (on_episode_end 12%float 4 demo.recorded) =
    ["Episode 5: 2.000s, steps: 3, steps per second: 2, episode reward: 6.000, reward: 2.000 [1.000, 3.000], action: 0.667 [0.000, 1.000], observations: 2.000 [1.000, 3.000], loss: --, mae: 2.333333"] ∧
  (∃ rest,
    "Episode 5: 2.000s, steps: 3, steps per second: 2, episode reward: 6.000, reward: 2.000 [1.000, 3.000], action: 0.667 [0.000, 1.000], observations: 2.000 [1.000, 3.000], loss: --, mae: 2.333333"
    = "Episode " +:+ fmt.int (4 + 1)
      +:+ ": 2.000s, steps: 3, steps per second: 2, episode reward: 6.000, reward: 2.000 [1.000, 3.000], action: "
      +:+ rest) ∧
  rewards samples.unordered !! 2 = Some [3%float; 1%float; 2%float] ∧
  printed (on_episode_end 12%float 2 samples.unordered) =
    ["Episode 3: 2.000s, steps: 3, steps per second: 2, episode reward: 6.000, reward: 2.000 [1.000, 3.000], action: 0.667 [0.000, 1.000], observations: 2.000 [1.000, 3.000], loss: --, mae: 2.333333"].
Proof.
  assert (H : printed (on_episode_end 12%float 4 demo.recorded) =
    ["Episode 5: 2.000s, steps: 3, steps per second: 2, episode reward: 6.000, reward: 2.000 [1.000, 3.000], action: 0.667 [0.000, 1.000], observations: 2.000 [1.000, 3.000], loss: --, mae: 2.333333"])
    by (vm_compute; reflexivity).
  split; [exact H|]. split.
  - refine (proj2 (summary_line_format demo.recorded 4 12%float _ H) 10%float
              [[1%float; 2%float; 3%float]; [1%float; 2%float; 3%float];
               [1%float; 2%float; 3%float]] _ _ _ _ _ _ _ _);
      vm_compute; reflexivity.
  - split; vm_compute; reflexivity.
Defined.

(** After a whole episode a step-end for that episode finds no buffer. *)
Lemma step_end_unopened_episode_witness :
  started demo.trained ∧
  live_after 4 (episode_calls 4 10%float 12%float demo.three_steps)
    (run (episode_calls 4 10%float 12%float demo.three_steps) demo.trained).1 = false ∧
  on_step_end (demo.step 4 1%float 0%float nan 1%float)
    (run (episode_calls 4 10%float 12%float demo.three_steps) demo.trained).2 =
  Reply (inl (KeyError 4))
    (run (episode_calls 4 10%float 12%float demo.three_steps) demo.trained).2 [].
Proof.
  assert (H1 : started demo.trained).
  { right. by exists 0%float, ["loss"; "mae"], None, (Some 100). }
  assert (H2 : live_after 4 (episode_calls 4 10%float 12%float demo.three_steps)
    (run (episode_calls 4 10%float 12%float demo.three_steps) demo.trained).1 = false)
    by (vm_compute; reflexivity).
  split; [exact H1|]. split; [exact H2|].
  exact (proj2 (proj1 (step_end_unopened_episode demo.trained _ 4
                         (demo.step 4 1%float 0%float nan 1%float) H1 eq_refl) H2)).
Defined.

(** C10, as stated, fails: an episode-end for episode 4 that raises, here
    because no step was recorded, frees nothing; no episode-begin for 4
    comes after it, and yet a step-end for 4 returns and is recorded. *)
Lemma step_end_after_failed_episode_end :
  open_after 4 samples.ended_at_once = false ∧
  (run samples.ended_at_once demo.trained).1 =
    [Observed 4 None []; Observed 4 (Some IndexError) []] ∧
  ret (on_step_end (demo.step 4 1%float 0%float nan 1%float)
         (run samples.ended_at_once demo.trained).2) = inr () ∧
  rewards (run samples.ended_at_once demo.trained).2 !! 4 = Some [] ∧
  rewards (post (on_step_end (demo.step 4 1%float 0%float nan 1%float)
                   (run samples.ended_at_once demo.trained).2)) !! 4 = Some [1%float].
Proof. vm_compute. repeat split; reflexivity. Qed.

End TrainEpisodeLoggerSamples.

Section TrainIntervalLoggerSamples.
Import TrainIntervalLogger.
#[local] Existing Instance np_sample.numpy.

(** After ten steps of a logger with a window of 10 the next step-begin
    starts the second interval. *)
Lemma window_reset_on_multiples_witness :
  interval (demo.after_steps 10 demo.window10) ≠ 0 ∧
  interval (demo.after_steps 10 demo.window10) = 10 ∧
  steps (demo.after_steps 10 demo.window10) = 10 ∧
  printed (on_step_begin 5%float (demo.after_steps 10 demo.window10)) =
    ["Interval 2.0 (10 steps performed)"] ∧
  metrics (post (on_step_begin 5%float (demo.after_steps 10 demo.window10))) = [].
Proof.
  assert (H0 : interval (demo.after_steps 10 demo.window10) ≠ 0)
    by (vm_compute; discriminate).
  assert (H10 : interval (demo.after_steps 10 demo.window10) = 10)
    by (vm_compute; reflexivity).
  assert (Hs : steps (demo.after_steps 10 demo.window10) = 10)
    by (vm_compute; reflexivity).
  split; [exact H0|]. split; [exact H10|]. split; [exact Hs|].
  rewrite (proj1 (proj2 (proj2 (proj2 (window_reset_on_multiples 5%float
             (demo.after_steps 10 demo.window10) H0)) H10)) Hs).
  split; reflexivity.
Defined.

(** The second step of a window whose first step recorded [1.0, NaN]. *)
Lemma step_end_nan_substitution_witness :
  metrics (demo.after_steps 1 demo.window10) = [[1%float; nan]] ∧
  metrics_names (demo.after_steps 1 demo.window10) = Some ["loss"; "mae"] ∧
  0 < interval (demo.after_steps 1 demo.window10) ∧
  np.sum [1%float] = 1%float ∧
  updates (progbar (post (on_step_end (demo.step 0 7%float 0%float nan 2%float)
                            (demo.after_steps 1 demo.window10)))) !! 1%nat =
    Some (2, [("reward", 7%float); ("loss", 1%float); ("mae", 2%float)]) ∧
  metrics (post (on_step_end (demo.step 0 7%float 0%float nan 2%float)
                   (demo.after_steps 1 demo.window10))) =
    [[1%float; nan]; [nan; 2%float]].
Proof.
  assert (H1 : metrics (demo.after_steps 1 demo.window10) = [[1%float; nan]])
    by (vm_compute; reflexivity).
  assert (H2 : metrics_names (demo.after_steps 1 demo.window10)
               = Some ["loss"; "mae"]) by (vm_compute; reflexivity).
  assert (H3 : 0 < interval (demo.after_steps 1 demo.window10))
    by (vm_compute; reflexivity).
  assert (H4 : np.sum [1%float] = 1%float) by reflexivity.
  split; [exact H1|]. split; [exact H2|]. split; [exact H3|]. split; [exact H4|].
  rewrite (proj2 (proj2 (proj2 (step_end_nan_substitution
             (demo.step 0 7%float 0%float nan 2%float)
             (demo.after_steps 1 demo.window10)))) "loss" "mae" H1 eq_refl H2 H3 H4).
  split; vm_compute; reflexivity.
Defined.

End TrainIntervalLoggerSamples.

(** * Further properties *)

(** ** The per-episode logger in any state it can reach *)

Section EpisodeCallsFacts.
Import TrainEpisodeLogger EpisodeCalls.
Context `{N : np.reductions}.
Implicit Types (s : state) (episode : Z) (logs : step_logs) (ev : event)
  (c : call) (cs : list call).

Lemma on_train_begin_eq now names nb_episodes nb_steps s :
  on_train_begin now names nb_episodes nb_steps s =
  Reply (inr ())
    (State (Some now) (Some names) (episode_start s) (observations s)
       (rewards s) (actions s) (metrics s))
    [training_message nb_episodes nb_steps].
Proof. reflexivity. Qed.

Lemma on_train_end_eq now s :
  on_train_end now s =
  match train_start s with
  | Some start =>
      Reply (inr ()) s ["done, took " +:+ fmt.f 3 (PrimFloat.sub now start) +:+ " seconds"]
  | None => Reply (inl (AttributeError "train_start")) s []
  end.
Proof.
  unfold on_train_end. rewrite bind_field. by destruct (train_start s).
Qed.

Lemma perform_view c s e :
  match c with Episode ev => event_episode ev ≠ e | _ => True end →
  view e (post (perform c s)) = view e s.
Proof.
  destruct c as [now names nb_e nb_s|now|ev]; cbn [perform].
  - done.
  - intros _. rewrite on_train_end_eq. by destruct (train_start s).
  - apply handle_frame.
Qed.

(** A step-end leaves aligned buffers aligned: it changes nothing or
    appends one entry to each list. *)
Lemma on_step_end_aligned logs s :
  aligned (view (log_episode logs) s) →
  (returned (on_step_end logs s) = false ∧ post (on_step_end logs s) = s) ∨
  (returned (on_step_end logs s) = true ∧
   ∃ start obs rs acts rows,
     view (log_episode logs) s =
       Buffers (Some start) (Some obs) (Some rs) (Some acts) (Some rows) ∧
     view (log_episode logs) (post (on_step_end logs s)) =
       Buffers (Some start) (Some (obs ++ [concat (log_observation logs)]))
         (Some (rs ++ [log_reward logs])) (Some (acts ++ [log_action logs]))
         (Some (rows ++ [log_metrics logs]))).
Proof.
  intros [Habs | (start & obs & rs & acts & rows & Hview & _)].
  - left. unfold view in Habs. injection Habs as _ H2 _ _ _.
    by rewrite (on_step_end_absent _ _ H2).
  - destruct (log_observation logs) as [|a arrays] eqn:Hobs.
    + left. rewrite on_step_end_eq. cbv zeta.
      unfold view in Hview. injection Hview as _ H2 _ _ _.
      by rewrite H2, Hobs.
    + right.
      destruct (on_step_end_view logs s (Some start) obs rs acts rows Hview)
        as (Hret & _ & Hpost); [by rewrite Hobs|].
      split; [unfold returned; by rewrite Hret|].
      exists start, obs, rs, acts, rows. by rewrite <- Hobs.
Qed.

Lemma perform_aligned c s :
  (∀ e, aligned (view e s)) → ∀ e, aligned (view e (post (perform c s))).
Proof.
  intros Hs e.
  destruct c as [now names nb_e nb_s|now|ev].
  - by rewrite perform_view.
  - by rewrite perform_view.
  - destruct (decide (event_episode ev = e)) as [<-|Hne];
      [|by rewrite perform_view].
    cbn [perform]. destruct ev as [now e|logs|now e]; cbn [handle event_episode].
    + right. exists now, [], [], [], []. split; [|done].
      unfold view. rewrite on_episode_begin_eq.
      cbn [post episode_start observations rewards actions metrics].
      by simplify_map_eq.
    + destruct (on_step_end_aligned logs s (Hs _))
        as [[_ ->] | (_ & start & obs & rs & acts & rows & Hv & ->)]; [done|].
      right. exists start, (obs ++ [concat (log_observation logs)]),
        (rs ++ [log_reward logs]), (acts ++ [log_action logs]),
        (rows ++ [log_metrics logs]).
      split; [done|].
      destruct (Hs (log_episode logs)) as [Habs | (? & ? & ? & ? & ? & Hv' & H1 & H2 & H3)];
        [congruence|].
      rewrite Hv in Hv'. injection Hv' as <- <- <- <- <-.
      rewrite !length_app. simpl. lia.
    + rewrite on_episode_end_eq. destruct (summary_of _ _ _ _); [done|].
      left. apply view_purge.
Qed.

Lemma reachable_aligned s : reachable s → ∀ e, aligned (view e s).
Proof.
  intros [cs ->].
  assert (H : ∀ s0, (∀ e, aligned (view e s0)) →
                    ∀ e, aligned (view e (perform_all cs s0))).
  { induction cs as [|c cs IH]; intros s0 H0; [done|].
    cbn [perform_all]. apply IH. by apply perform_aligned. }
  apply H. intros e. by left.
Qed.

(** In every state the logger can reach, whatever calls were made and
    whichever of them raised, the five dictionaries have the same keys. *)
Theorem buffers_same_keys s :
  reachable s →
  dom (episode_start s) = dom (observations s) ∧
  dom (observations s) = dom (rewards s) ∧
  dom (rewards s) = dom (actions s) ∧
  dom (actions s) = dom (metrics s).
Proof.
  intros Hs.
  assert (H : ∀ e,
    (e ∈ dom (episode_start s) ↔ e ∈ dom (observations s)) ∧
    (e ∈ dom (observations s) ↔ e ∈ dom (rewards s)) ∧
    (e ∈ dom (rewards s) ↔ e ∈ dom (actions s)) ∧
    (e ∈ dom (actions s) ↔ e ∈ dom (metrics s))).
  { intros e. rewrite !elem_of_dom.
    destruct (reachable_aligned s Hs e) as [Hv | (? & ? & ? & ? & ? & Hv & _)];
      unfold view in Hv; injection Hv as -> -> -> -> ->;
      repeat split; intros [? ?]; done || eauto. }
  repeat split; apply set_eq; intros e; apply (H e).
Qed.

(** On a dictionary that carries the five keys [on_step_end_dict] is
    [on_step_end]. *)
Lemma on_step_end_as_dict logs s :
  on_step_end_dict (as_dict logs) s = on_step_end logs s.
Proof.
  rewrite on_step_end_eq. unfold on_step_end_dict, as_dict. cbv zeta.
  cbn [dict_episode dict_observation dict_reward dict_action dict_metrics getkey].
  rewrite bind_lift, bind_item.
  destruct (observations s !! log_episode logs) as [obs|]; [|done].
  rewrite !bind_lift.
  destruct (np.concatenate (log_observation logs)) as [e|flat]; [done|].
  rewrite bind_write, bind_item. cbn [rewards set_observations].
  destruct (rewards s !! log_episode logs) as [rs|]; [|done].
  rewrite bind_lift, bind_write, bind_item. cbn [actions set_rewards set_observations].
  destruct (actions s !! log_episode logs) as [acts|]; [|done].
  rewrite bind_lift, bind_write, bind_item.
  cbn [metrics set_actions set_rewards set_observations].
  destruct (metrics s !! log_episode logs) as [rows|]; [|done].
  rewrite bind_lift. reflexivity.
Qed.

(** A dictionary without the key ['reward'], for an episode whose buffers
    exist: the observation is appended, then [KeyError] is raised. *)
Lemma on_step_end_dict_no_reward episode arrays action vector s obs rs :
  arrays ≠ [] →
  observations s !! episode = Some obs →
  rewards s !! episode = Some rs →
  on_step_end_dict (LogDict (Some episode) (Some arrays) None action vector) s =
  Reply (inl (MissingKey "reward"))
    (set_observations <[episode := obs ++ [concat arrays]]> s) [].
Proof.
  intros Harrays Hobs Hrs. unfold on_step_end_dict.
  cbn [dict_episode dict_observation dict_reward dict_action dict_metrics getkey].
  rewrite bind_lift, bind_item, Hobs, !bind_lift.
  destruct arrays as [|a arrays]; [done|]. cbn [np.concatenate].
  rewrite bind_write, bind_item. cbn [rewards set_observations]. rewrite Hrs.
  rewrite bind_lift. reflexivity.
Qed.

(** In every state the logger reaches by calls whose step-end dictionaries
    carry the five keys (episode, observation, reward, action, metrics),
    the observations, rewards, actions and metric vectors recorded for an
    episode are equally many: the step count of the summary is also the
    number of rewards it sums.  A step-end whose dictionary lacks
    ['reward'] breaks this: it leaves one observation more than there are
    rewards. *)
Theorem buffers_same_length s episode obs rs acts rows :
  reachable s →
  observations s !! episode = Some obs →
  rewards s !! episode = Some rs →
  actions s !! episode = Some acts →
  metrics s !! episode = Some rows →
  (length obs = length rs ∧ length rs = length acts ∧ length acts = length rows) ∧
  (∀ arrays action vector,
     arrays ≠ [] →
     let s' := post (on_step_end_dict
                       (LogDict (Some episode) (Some arrays) None action vector) s) in
     observations s' !! episode = Some (obs ++ [concat arrays]) ∧
     rewards s' !! episode = Some rs).
Proof.
  intros Hs Hobs Hrs Hacts Hrows. split.
  - destruct (reachable_aligned s Hs episode) as [Hv | (? & ? & ? & ? & ? & Hv & Hlen)];
      unfold view in Hv; injection Hv as H1 H2 H3 H4 H5.
    + congruence.
    + rewrite Hobs in H2. rewrite Hrs in H3. rewrite Hacts in H4. rewrite Hrows in H5.
      by simplify_eq.
  - intros arrays action vector Harrays. cbv zeta.
    rewrite (on_step_end_dict_no_reward _ _ _ _ _ obs rs Harrays Hobs Hrs).
    cbn [post observations rewards set_observations].
    by rewrite lookup_insert_eq.
Qed.

(** In a state the logger reaches by calls whose step-end dictionaries
    carry the five keys, a step-end whose dictionary carries them too is
    all or nothing: when it raises, the state is the one before the call;
    when it returns, it has appended the flattened observation, the
    reward, the action and the metric vector to the lists of its
    episode.  A dictionary that lacks a key is another matter: without
    ['reward'], for an episode whose buffers exist, the observation is
    appended and then [KeyError] is raised. *)
Theorem step_end_all_or_nothing s logs :
  reachable s →
  printed (on_step_end logs s) = [] ∧
  (returned (on_step_end logs s) = false → post (on_step_end logs s) = s) ∧
  (returned (on_step_end logs s) = true →
   ∃ start obs rs acts rows,
     view (log_episode logs) s =
       Buffers (Some start) (Some obs) (Some rs) (Some acts) (Some rows) ∧
     view (log_episode logs) (post (on_step_end logs s)) =
       Buffers (Some start) (Some (obs ++ [concat (log_observation logs)]))
         (Some (rs ++ [log_reward logs])) (Some (acts ++ [log_action logs]))
         (Some (rows ++ [log_metrics logs]))) ∧
  on_step_end_dict (as_dict logs) s = on_step_end logs s ∧
  (∀ obs action vector,
     log_observation logs ≠ [] →
     observations s !! log_episode logs = Some obs →
     on_step_end_dict
       (LogDict (Some (log_episode logs)) (Some (log_observation logs)) None
          action vector) s =
     Reply (inl (MissingKey "reward"))
       (set_observations
          <[log_episode logs := obs ++ [concat (log_observation logs)]]> s) []).
Proof.
  intros Hs. split.
  { rewrite on_step_end_eq. cbv zeta. repeat (case_match; try done). }
  split; [|split; [|split]].
  - destruct (on_step_end_aligned logs s (reachable_aligned s Hs _))
      as [[Hret Hpost] | [Hret Hpost]]; rewrite Hret; done.
  - destruct (on_step_end_aligned logs s (reachable_aligned s Hs _))
      as [[Hret Hpost] | [Hret Hpost]]; rewrite Hret; done.
  - apply on_step_end_as_dict.
  - intros obs action vector Harrays Hobs.
    destruct (reachable_aligned s Hs (log_episode logs))
      as [Hv | (? & ? & rs & ? & ? & Hv & _)];
      unfold view in Hv; injection Hv as _ H2 H3 _ _; [congruence|].
    by apply (on_step_end_dict_no_reward _ _ _ _ _ obs rs).
Qed.

(** An episode-end is all or nothing, in any state: when it raises it has
    printed nothing and the state is the one before the call; when it
    returns it has printed exactly one line, the five entries of its
    episode existed and are gone, and the buffers of the other episodes,
    the metric names and the start of training are as they were. *)
Theorem episode_end_all_or_nothing now episode s :
  let r := on_episode_end now episode s in
  (returned r = false → post r = s ∧ printed r = []) ∧
  (returned r = true →
   (∃ line, printed r = [line]) ∧
   present episode s ∧ absent episode (post r) ∧
   (∀ e, e ≠ episode → view e (post r) = view e s) ∧
   metrics_names (post r) = metrics_names s ∧
   train_start (post r) = train_start s).
Proof.
  cbv zeta. rewrite on_episode_end_eq. unfold returned.
  destruct (summary_of _ _ _ _) as [err|line] eqn:Hsum; cbn [ret post printed].
  - split; [done|]. discriminate.
  - split; [discriminate|]. intros _.
    apply summary_of_returned in Hsum.
    split; [by eexists|]. split; [exact Hsum|]. split; [apply view_purge|].
    split; [|done]. intros e He. by apply view_purge_ne.
Qed.

Lemma handle_train_start ev s : train_start (post (handle ev s)) = train_start s.
Proof.
  destruct ev as [now e|logs|now e]; simpl.
  - done.
  - rewrite on_step_end_eq. cbv zeta. repeat (case_match; try done).
  - rewrite on_episode_end_eq. by case_match.
Qed.

Lemma run_train_start evs s : train_start (run evs s).2 = train_start s.
Proof.
  revert s. induction evs as [|ev evs IH]; intros s; [done|].
  rewrite run_cons. cbn [snd]. by rewrite IH, handle_train_start.
Qed.

Lemma run_metrics_names evs s : metrics_names (run evs s).2 = metrics_names s.
Proof.
  revert s. induction evs as [|ev evs IH]; intros s; [done|].
  rewrite run_cons. cbn [snd]. by rewrite IH, handle_metrics_names.
Qed.

(** [on_train_end] prints the time elapsed since [on_train_begin], with
    three decimals, whatever episode calls came in between, and changes
    nothing; on a logger that was never told that training begins it
    raises [AttributeError]. *)
Theorem train_end_reports_duration t0 t1 names nb_episodes nb_steps evs s0 :
  (let s := (run evs (post (on_train_begin t0 names nb_episodes nb_steps s0))).2 in
   on_train_end t1 s =
   Reply (inr ()) s ["done, took " +:+ fmt.f 3 (PrimFloat.sub t1 t0) +:+ " seconds"]) ∧
  (let s := (run evs init).2 in
   on_train_end t1 s = Reply (inl (AttributeError "train_start")) s []).
Proof.
  cbv zeta. rewrite !on_train_end_eq, !run_train_start. done.
Qed.

Lemma summary_of_no_names now episode b :
  ∃ err, summary_of None now episode b = inl err.
Proof.
  unfold summary_of.
  destruct (b_start b); cbn [need and_then]; [|by eexists].
  destruct (b_observations b); cbn [need and_then]; [|by eexists].
  destruct (b_metrics b); cbn [need and_then]; by eexists.
Qed.

Lemma handle_prints_nothing_without_names ev s :
  metrics_names s = None → printed (handle ev s) = [].
Proof.
  intros Hnames. destruct ev as [now e|logs|now e]; cbn [handle].
  - done.
  - rewrite on_step_end_eq. cbv zeta. repeat (case_match; try done).
  - rewrite on_episode_end_eq, Hnames.
    by destruct (summary_of_no_names now e (view e s)) as [err ->].
Qed.

(** A logger on which [on_train_begin] was never called never prints a
    summary and never frees a buffer: every episode-end raises, whatever
    was recorded. *)
Theorem no_summary_before_train_begin evs now episode :
  Forall (λ o, lines o = []) (run evs init).1 ∧
  returned (on_episode_end now episode (run evs init).2) = false ∧
  post (on_episode_end now episode (run evs init).2) = (run evs init).2.
Proof.
  assert (Hlines : ∀ s, metrics_names s = None →
                        Forall (λ o, lines o = []) (run evs s).1).
  { induction evs as [|ev evs IH]; intros s Hs; [by constructor|].
    rewrite run_cons. cbn [fst]. constructor.
    - by apply handle_prints_nothing_without_names.
    - apply IH. by rewrite handle_metrics_names. }
  split; [by apply Hlines|].
  rewrite on_episode_end_eq, run_metrics_names. cbn [metrics_names init].
  by destruct (summary_of_no_names now episode (view episode (run evs init).2))
    as [err ->].
Qed.

(** After any calls that all returned, an episode-end for an episode that
    is not open (it was never begun, or it was ended already) raises
    [KeyError], prints nothing and changes nothing. *)
Theorem episode_end_unopened_episode s0 evs now episode :
  started s0 →
  Forall (λ o, raised o = None) (run evs s0).1 →
  open_after episode evs = false →
  on_episode_end now episode (run evs s0).2 =
  Reply (inl (KeyError episode)) (run evs s0).2 [].
Proof.
  intros Hs0 Hret Hopen.
  pose proof (run_open episode evs false s0 (started_absent _ _ Hs0) Hret) as H.
  unfold open_after in Hopen. rewrite Hopen in H.
  rewrite on_episode_end_eq. unfold absent in H. rewrite H.
  reflexivity.
Qed.

Lemma steps_returned e steps :
  ∀ s start obs rs acts rows,
    Forall (λ l, log_episode l = e) steps →
    Forall (λ l, log_observation l ≠ []) steps →
    view e s = Buffers start (Some obs) (Some rs) (Some acts) (Some rows) →
    Forall (λ o, raised o = None) (run (map StepEnd steps) s).1.
Proof.
  induction steps as [|logs steps IH]; intros s start obs rs acts rows He Hobs Hview;
    [constructor|].
  apply Forall_cons in He as [<- He]. apply Forall_cons in Hobs as [Hl Hobs].
  cbn [map]. rewrite run_cons. cbn [fst handle].
  destruct (on_step_end_view logs s start obs rs acts rows Hview Hl)
    as (Hret & _ & Hview').
  constructor.
  - unfold observe. cbn [raised]. by rewrite Hret.
  - by eapply IH.
Qed.

(** After an episode-begin at time [t0] and step-ends that each carry at
    least one observation array, every call has returned and the buffers
    of the episode hold, in the order of the calls, the flattened
    observations, the rewards, the actions and the metric vectors of the
    steps, whatever the logger held before. *)
Theorem episode_records_its_steps s episode t0 steps :
  Forall (λ l, log_episode l = episode) steps →
  Forall (λ l, log_observation l ≠ []) steps →
  Forall (λ o, raised o = None)
    (run (EpisodeBegin t0 episode :: map StepEnd steps) s).1 ∧
  view episode (run (EpisodeBegin t0 episode :: map StepEnd steps) s).2 =
  recorded_buffers t0 steps.
Proof.
  intros Hall Hobs. rewrite run_cons. cbn [fst snd handle].
  set (s0 := post (on_episode_begin t0 episode s)).
  assert (Hs0 : view episode s0 =
                Buffers (Some t0) (Some []) (Some []) (Some []) (Some [])).
  { unfold s0, view. rewrite on_episode_begin_eq.
    cbn [post episode_start observations rewards actions metrics].
    by simplify_map_eq. }
  split.
  - constructor; [done|].
    by apply (steps_returned episode steps s0 _ _ _ _ _ Hall Hobs Hs0).
  - destruct (steps_view episode steps s0 _ _ _ _ _ Hall Hobs Hs0) as [_ ->].
    reflexivity.
Qed.

End EpisodeCallsFacts.

(** ** The interval logger in any state it can reach *)

Section IntervalCallsFacts.
Import TrainIntervalLogger IntervalCalls.
Context `{N : np.reductions}.
Implicit Types (s : state) (logs : step_logs) (c : call) (cs : list call).

Lemma interval_train_end_eq now s :
  on_train_end now s =
  match train_start s with
  | Some start =>
      Reply (inr ()) s ["done, took " +:+ fmt.f 3 (PrimFloat.sub now start) +:+ " seconds"]
  | None => Reply (inl (AttributeError "train_start")) s []
  end.
Proof.
  unfold on_train_end. rewrite bind_field. by destruct (train_start s).
Qed.

(** What a step-end leaves: the state before it, or that state with one
    more update of the progress bar, one more step counted and one more
    vector buffered. *)
Lemma interval_step_end_post logs s :
  post (on_step_end logs s) = s ∨
  ∃ values,
    post (on_step_end logs s) =
    State (interval s) (steps s + 1) (interval_start s)
      (update (steps s mod interval s + 1) values (progbar s))
      (metrics s ++ [log_metrics logs]) (train_start s) (metrics_names s).
Proof.
  rewrite interval_step_end_eq.
  destruct (filter_metrics _ _ _ _ _); [by left|].
  destruct (if existsb np.isnan _ then _ else _); [|by left].
  destruct (interval s =? 0); [by left|]. right. by eexists.
Qed.

Lemma interval_step_begin_post now s :
  post (on_step_begin now s) = s ∨
  (steps s mod interval s = 0 ∧ post (on_step_begin now s) = fresh_window now s).
Proof.
  rewrite interval_step_begin_eq.
  destruct (interval s =? 0); [by left|].
  destruct (Z.eqb_spec (steps s mod interval s) 0); [by right|by left].
Qed.

(** In every state a logger with a positive window size can reach,
    whatever calls were made and whichever of them raised, the window size
    is the one given at construction, the progress bar has that size as its
    target and was only ever moved to positions from 1 to its target, and
    the step counter is not negative. *)
Theorem progress_within_target interval s :
  0 < interval →
  reachable interval s →
  TrainIntervalLogger.interval s = interval ∧
  target (progbar s) = interval ∧
  Forall (λ position, 1 ≤ position ≤ target (progbar s)) (positions (progbar s)) ∧
  0 ≤ steps s.
Proof.
  intros Hi (now & cs & ->).
  assert (H : ∀ s0,
    (TrainIntervalLogger.interval s0 = interval ∧ target (progbar s0) = interval ∧
     Forall (λ position, 1 ≤ position ≤ interval) (positions (progbar s0)) ∧
     0 ≤ steps s0) →
    (TrainIntervalLogger.interval (perform_all cs s0) = interval ∧
     target (progbar (perform_all cs s0)) = interval ∧
     Forall (λ position, 1 ≤ position ≤ interval)
       (positions (progbar (perform_all cs s0))) ∧
     0 ≤ steps (perform_all cs s0))).
  { induction cs as [|c cs IH]; intros s0 H0; [done|].
    cbn [perform_all]. apply IH. destruct H0 as (H1 & H2 & H3 & H4).
    destruct c as [t names nb_e nb_s|t|t|logs]; cbn [perform].
    - done.
    - rewrite interval_train_end_eq. by destruct (train_start s0).
    - destruct (interval_step_begin_post t s0) as [-> | [_ ->]]; [done|].
      unfold fresh_window, positions. cbn. by rewrite H1.
    - destruct (interval_step_end_post logs s0) as [-> | [values ->]]; [done|].
      unfold positions, update in *. cbn. rewrite H1, H2, map_app.
      repeat split; try done; [|lia].
      apply Forall_app. split; [done|]. constructor; [|done]. simpl.
      pose proof (Z.mod_pos_bound (steps s0) interval Hi). lia. }
  destruct (H (init now interval)) as (H1 & H2 & H3 & H4).
  { unfold init, positions. cbn. repeat split; try done. }
  rewrite H2. done.
Qed.

Lemma succ_mod k i :
  0 < i → 0 ≤ k → (k + 1) mod i ≠ 0 → (k + 1) mod i = k mod i + 1.
Proof.
  intros Hi Hk Hne.
  pose proof (Z.mod_pos_bound k i Hi) as Hb.
  pose proof (Z.div_mod k i ltac:(lia)) as Hdm.
  destruct (decide (k mod i + 1 < i)) as [Hlt|Hge].
  - symmetry. apply (Z.mod_unique_pos _ _ (k / i)); lia.
  - destruct Hne. assert (k + 1 = i * (k / i + 1)) as -> by lia.
    rewrite Z.mul_comm. by apply Z.mod_mul; lia.
Qed.

(** The state between two steps of a training loop. *)
Lemma loop_invariant interval steps_list :
  0 < interval →
  ∀ s,
    (TrainIntervalLogger.interval s = interval ∧ 0 ≤ steps s ∧
     positions (progbar s) = map Z.of_nat (seq 1 (length (metrics s))) ∧
     (Z.of_nat (length (metrics s)) = steps s mod interval ∨
      0 < steps s ∧
      Z.of_nat (length (metrics s)) = (steps s - 1) mod interval + 1)) →
    let s' := loop steps_list s in
    TrainIntervalLogger.interval s' = interval ∧ 0 ≤ steps s' ∧
    positions (progbar s') = map Z.of_nat (seq 1 (length (metrics s'))) ∧
    (Z.of_nat (length (metrics s')) = steps s' mod interval ∨
     0 < steps s' ∧
     Z.of_nat (length (metrics s')) = (steps s' - 1) mod interval + 1).
Proof.
  intros Hi. induction steps_list as [|[now logs] rest IH]; intros s Hs; [done|].
  cbn [loop]. apply IH. clear IH. destruct Hs as (H1 & H2 & H3 & H4).
  set (s1 := post (on_step_begin now s)).
  assert (Hs1 : TrainIntervalLogger.interval s1 = interval ∧ steps s1 = steps s ∧
                positions (progbar s1) = map Z.of_nat (seq 1 (length (metrics s1))) ∧
                Z.of_nat (length (metrics s1)) = steps s mod interval).
  { subst s1. rewrite interval_step_begin_eq, H1.
    destruct (Z.eqb_spec interval 0) as [?|_]; [lia|].
    destruct (Z.eqb_spec (steps s mod interval) 0) as [H0|H0]; cbn [post].
    - unfold fresh_window, positions. cbn. by rewrite H0.
    - repeat split; try done. destruct H4 as [H4|[Hpos H4]]; [done|].
      rewrite H4. replace (steps s) with (steps s - 1 + 1) at 2 by lia.
      symmetry. apply succ_mod; [done|lia|].
      by replace (steps s - 1 + 1) with (steps s) by lia. }
  destruct Hs1 as (Hi1 & Hst1 & Hpos1 & Hlen1).
  destruct (interval_step_end_post logs s1) as [-> | [values ->]].
  - repeat split; try done; [lia|]. left. by rewrite Hst1.
  - cbn. rewrite Hi1, Hst1. repeat split; try done; [lia| |].
    + unfold positions, update in *. cbn. rewrite map_app, Hpos1, length_app. cbn.
      rewrite Nat.add_1_r, seq_S, map_app. cbn. do 2 f_equal. lia.
    + right. split; [lia|].
      rewrite length_app. cbn. replace (steps s + 1 - 1) with (steps s) by lia. lia.
Qed.

(** In a training loop on a logger with a positive window size, between
    two steps the window buffer never holds more vectors than the window
    size, and the progress bar of the current window was moved to the
    positions 1, 2, ... in turn, once per buffered vector, whichever
    step-ends raised. *)
Theorem window_buffer_bounded interval s0 steps_list :
  0 < interval →
  started interval s0 →
  let s := loop steps_list s0 in
  Z.of_nat (length (metrics s)) ≤ interval ∧
  positions (progbar s) = map Z.of_nat (seq 1 (length (metrics s))) ∧
  0 ≤ steps s.
Proof.
  intros Hi Hs0.
  destruct (loop_invariant interval steps_list Hi s0) as (H1 & H2 & H3 & H4).
  { destruct Hs0 as [now [-> | (t & names & nb_e & nb_s & ->)]];
      cbn; repeat split; try done; left; by rewrite Z.mod_0_l by lia. }
  cbv zeta. split; [|done].
  destruct H4 as [-> | [_ ->]].
  - pose proof (Z.mod_pos_bound (steps (loop steps_list s0)) interval Hi). lia.
  - pose proof (Z.mod_pos_bound (steps (loop steps_list s0) - 1) interval Hi). lia.
Qed.

(** A logger constructed with a window size of zero cannot take a step:
    step-begin raises [ZeroDivisionError], step-end raises too, and both
    leave the state as it was. *)
Theorem zero_interval_raises now logs s :
  interval s = 0 →
  on_step_begin now s = Reply (inl ZeroDivisionError) s [] ∧
  returned (on_step_end logs s) = false ∧
  post (on_step_end logs s) = s.
Proof.
  intros H0. rewrite interval_step_begin_eq, interval_step_end_eq, H0.
  split; [done|]. unfold returned.
  destruct (filter_metrics _ _ _ _ _); [done|].
  by destruct (if existsb np.isnan _ then _ else _).
Qed.

Lemma filter_metrics_no_nan buffer names values :
  existsb np.isnan values = false →
  ∀ idx means, filter_metrics buffer names idx values means = inr values.
Proof.
  induction values as [|value values IH]; intros Hnan idx means; [done|].
  cbn [existsb] in Hnan. apply orb_false_iff in Hnan as [Hv Hrest].
  cbn [filter_metrics]. rewrite Hv. cbn [negb]. by rewrite (IH Hrest).
Qed.

(** On a logger with a positive window size a step whose metrics contain
    no NaN never looks at the window buffer: whatever the buffer holds, the
    call returns, shows the reward and every metric as received (as many as
    there are names), counts the step and buffers the vector. *)
Theorem step_end_without_nan logs s names :
  existsb np.isnan (log_metrics logs) = false →
  metrics_names s = Some names →
  0 < interval s →
  on_step_end logs s =
  Reply (inr ())
    (State (interval s) (steps s + 1) (interval_start s)
       (update (steps s mod interval s + 1)
          (("reward", log_reward logs) :: zip names (log_metrics logs))
          (progbar s))
       (metrics s ++ [log_metrics logs]) (train_start s) (metrics_names s)) [].
Proof.
  intros Hnan Hnames Hi.
  rewrite interval_step_end_eq, (filter_metrics_no_nan _ _ _ Hnan), Hnan, Hnames.
  cbn [option_map]. destruct (Z.eqb_spec (interval s) 0); [lia|done].
Qed.

Lemma filter_metrics_width_mismatch buffer n w names values :
  np.shape2 buffer = Some (n, w) →
  length names ≠ w →
  existsb np.isnan values = true →
  ∀ idx, filter_metrics buffer (Some names) idx values None = inl AssertionError.
Proof.
  intros Hshape Hw.
  assert (Hlen : Nat.ltb 0 (length buffer) = true).
  { destruct buffer; [done|]. done. }
  destruct (nanmean_axis0_shape _ _ _ Hshape) as (ms & Hax & Hms).
  induction values as [|value values IH]; intros Hnan idx; [done|].
  cbn [filter_metrics]. destruct (np.isnan value) eqn:Hv; cbn [negb].
  - rewrite Hlen. unfold column_means. rewrite Hax, Hms.
    destruct (Nat.eqb_spec w (length names)); [congruence|done].
  - cbn [existsb] in Hnan. rewrite Hv in Hnan. by rewrite (IH Hnan).
Qed.

(** When the buffered vectors are not as wide as the list of metric names,
    a step whose metrics contain a NaN fails the assertion on the shape of
    the means: [AssertionError], and the state is left as it was. *)
Theorem step_end_width_mismatch logs s n w names :
  np.shape2 (metrics s) = Some (n, w) →
  metrics_names s = Some names →
  length names ≠ w →
  existsb np.isnan (log_metrics logs) = true →
  on_step_end logs s = Reply (inl AssertionError) s [].
Proof.
  intros Hshape Hnames Hw Hnan.
  rewrite interval_step_end_eq, Hnames.
  by rewrite (filter_metrics_width_mismatch _ n w names _ Hshape Hw Hnan).
Qed.

Lemma filter_metrics_empty_nan names values :
  ∀ idx means,
    ∃ filtered,
      filter_metrics [] names idx values means = inr filtered ∧
      existsb np.isnan filtered = existsb np.isnan values.
Proof.
  induction values as [|value values IH]; intros idx means; cbn [filter_metrics].
  { by exists []. }
  destruct (IH (S idx) means) as (fs & -> & Hfs).
  destruct (np.isnan value) eqn:Hv; cbn [negb length Nat.ltb Nat.leb].
  - exists (nan :: fs). split; [done|]. cbn [existsb]. by rewrite Hv.
  - exists (value :: fs). split; [done|]. cbn [existsb]. by rewrite Hv, Hfs.
Qed.

(** On the first step of a window of a logger with a positive window size,
    when nothing is buffered yet, a NaN among the metrics hides all the
    metrics: the progress bar is given the reward only.  The call returns
    even before [on_train_begin], the metric names not being read. *)
Theorem step_end_nan_in_empty_window logs s :
  metrics s = [] →
  existsb np.isnan (log_metrics logs) = true →
  0 < interval s →
  on_step_end logs s =
  Reply (inr ())
    (State (interval s) (steps s + 1) (interval_start s)
       (update (steps s mod interval s + 1) [("reward", log_reward logs)] (progbar s))
       [log_metrics logs] (train_start s) (metrics_names s)) [].
Proof.
  intros Hbuf Hnan Hi.
  rewrite interval_step_end_eq, Hbuf.
  destruct (filter_metrics_empty_nan (metrics_names s) (log_metrics logs) 0%nat None)
    as (filtered & -> & Hf).
  rewrite Hf, Hnan. destruct (Z.eqb_spec (interval s) 0); [lia|done].
Qed.

End IntervalCallsFacts.

(** ** The callback list, further *)

Section CallbackListMore.
Import CallbackList.
Context {World Logs : Type}.
Implicit Types (cb : @callback World Logs) (cbs : list (@callback World Logs))
  (self : @CallbackList World Logs) (w : World) (logs : Logs).

(** An exception raised by a callback stops the dispatch: it is raised to
    the caller with the world that callback left, the callbacks before it
    were called, and no callback after it is. *)
Theorem dispatch_stops_at_exception ev self index logs w i cb m e w' :
  callbacks self !! i = Some cb →
  cb !! chosen ev cb = Some (Method m) →
  let r0 := dispatch_from (new_name ev) (legacy_name ev) 0
              (take i (callbacks self)) index logs w in
  result r0 = None →
  m index logs (world r0) = (Some e, w') →
  on_event ev self index logs w =
  Outcome (Some e) w' (calls r0 ++ [Call i (chosen ev cb) index logs]).
Proof.
  intros Hcb Hm. cbv zeta. intros Hret Hraise. rewrite on_event_unfold.
  rewrite <- (take_drop_middle _ _ _ Hcb) at 1.
  rewrite dispatch_from_app. cbv zeta. rewrite Hret.
  rewrite length_take_le by (apply Nat.lt_le_incl; by eapply lookup_lt_Some).
  cbn [dispatch_from Nat.add].
  set (r := if callable (cb !! new_name ev) then _ else _).
  assert (Hr : r = Outcome (Some e) w' [Call i (chosen ev cb) index logs]).
  { subst r. unfold chosen in *.
    destruct (callable (cb !! new_name ev)); unfold invoke; by rewrite Hm, Hraise. }
  rewrite Hr. reflexivity.
Qed.

(** Dispatching to a list made of two parts is dispatching to the first
    part and, when that returned, to the second part in the world the
    first left; when the first part raised, the second is not called. *)
Theorem dispatch_concatenated ev cbs1 cbs2 index logs w :
  on_event ev {| callbacks := cbs1 ++ cbs2 |} index logs w =
  let r1 := on_event ev {| callbacks := cbs1 |} index logs w in
  match result r1 with
  | Some _ => r1
  | None =>
      let r2 := dispatch_from (new_name ev) (legacy_name ev) (length cbs1) cbs2
                  index logs (world r1) in
      Outcome (result r2) (world r2) (calls r1 ++ calls r2)
  end.
Proof.
  rewrite !on_event_unfold. cbn [callbacks]. rewrite dispatch_from_app. reflexivity.
Qed.

Lemma subclass_new_method ev (overrides inherited : gmap string (@attr World Logs)) :
  overrides !! new_name ev = None →
  Callback.subclass overrides (Callback.attributes inherited) !! new_name ev
  = Some (Method Callback.pass).
Proof.
  intros Hnone. unfold Callback.subclass, callback. rewrite lookup_union_r by done.
  unfold Callback.attributes, Callback.on_episode_begin, Callback.on_episode_end,
    Callback.on_step_begin, Callback.on_step_end, callback.
  destruct ev; cbn [new_name];
    rewrite ?lookup_insert_ne by discriminate; by rewrite lookup_insert_eq.
Qed.

Lemma dispatch_from_shadowed ev cbs index logs w :
  Forall (λ cb, ∃ overrides inherited,
            cb = Callback.subclass overrides (Callback.attributes inherited) ∧
            overrides !! new_name ev = None) cbs →
  ∀ pos,
    dispatch_from (new_name ev) (legacy_name ev) pos cbs index logs w =
    Outcome None w (imap (λ i _, Call (pos + i) (new_name ev) index logs) cbs).
Proof.
  induction 1 as [|cb cbs (overrides & inherited & -> & Hnone) _ IH]; intros pos;
    [done|].
  cbn [dispatch_from]. unfold invoke.
  rewrite (subclass_new_method ev overrides inherited Hnone).
  cbn [callable Callback.pass result world calls]. rewrite IH, imap_cons.
  cbn [app]. rewrite Nat.add_0_r. do 2 f_equal.
  apply imap_ext. intros j x _. simpl. f_equal. lia.
Qed.

(** A subclass of [Callback] that defines only Keras' epoch and batch
    methods is never sent an event by the list: the methods [Callback]
    itself defines are found first, they do nothing, and the legacy methods
    of the subclass are not called.  Over a list of such callbacks the
    dispatch returns, leaves the world as it was and has called the
    new-convention method on every callback. *)
Theorem keras_methods_shadowed ev self index logs w :
  Forall (λ cb, ∃ overrides inherited,
            cb = Callback.subclass overrides (Callback.attributes inherited) ∧
            overrides !! new_name ev = None) (callbacks self) →
  on_event ev self index logs w =
  Outcome None w (imap (λ i _, Call i (new_name ev) index logs) (callbacks self)).
Proof.
  intros Hall. rewrite on_event_unfold.
  by rewrite (dispatch_from_shadowed ev _ index logs w Hall 0%nat).
Qed.

End CallbackListMore.

(** ** The further properties on sample objects and runs *)

Section MoreSamples.
#[local] Existing Instance np_sample.numpy.

Lemma buffers_same_keys_witness :
  EpisodeCalls.reachable samples.busy ∧
  dom (TrainEpisodeLogger.episode_start samples.busy)
    = dom (TrainEpisodeLogger.observations samples.busy) ∧
  dom (TrainEpisodeLogger.observations samples.busy)
    = dom (TrainEpisodeLogger.rewards samples.busy) ∧
  dom (TrainEpisodeLogger.rewards samples.busy)
    = dom (TrainEpisodeLogger.actions samples.busy) ∧
  dom (TrainEpisodeLogger.actions samples.busy)
    = dom (TrainEpisodeLogger.metrics samples.busy).
Proof.
  assert (H : EpisodeCalls.reachable samples.busy) by (by exists samples.busy_calls).
  split; [exact H|]. exact (buffers_same_keys samples.busy H).
Defined.

Lemma buffers_same_length_witness :
  EpisodeCalls.reachable samples.busy ∧
  TrainEpisodeLogger.observations samples.busy !! 4
    = Some [[1%float; 2%float; 3%float]] ∧
  TrainEpisodeLogger.rewards samples.busy !! 4 = Some [1%float] ∧
  TrainEpisodeLogger.actions samples.busy !! 4 = Some [0%float] ∧
  TrainEpisodeLogger.metrics samples.busy !! 4 = Some [[nan; 1%float]] ∧
  length [[1%float; 2%float; 3%float]] = length [1%float] ∧
  length [1%float] = length [0%float] ∧
  length [0%float] = length [[nan; 1%float]].
Proof.
  assert (H : EpisodeCalls.reachable samples.busy) by (by exists samples.busy_calls).
  assert (H1 : TrainEpisodeLogger.observations samples.busy !! 4
               = Some [[1%float; 2%float; 3%float]]) by (vm_compute; reflexivity).
  assert (H2 : TrainEpisodeLogger.rewards samples.busy !! 4 = Some [1%float])
    by (vm_compute; reflexivity).
  assert (H3 : TrainEpisodeLogger.actions samples.busy !! 4 = Some [0%float])
    by (vm_compute; reflexivity).
  assert (H4 : TrainEpisodeLogger.metrics samples.busy !! 4 = Some [[nan; 1%float]])
    by (vm_compute; reflexivity).
  split; [exact H|]. split; [exact H1|]. split; [exact H2|]. split; [exact H3|].
  split; [exact H4|].
  exact (proj1 (buffers_same_length samples.busy 4 _ _ _ _ H H1 H2 H3 H4)).
Defined.

Lemma step_end_all_or_nothing_witness :
  EpisodeCalls.reachable samples.busy ∧
  printed (TrainEpisodeLogger.on_step_end
             (demo.step 7 1%float 0%float nan 1%float) samples.busy) = [] ∧
  post (TrainEpisodeLogger.on_step_end
          (demo.step 7 1%float 0%float nan 1%float) samples.busy) = samples.busy ∧
  ret (TrainEpisodeLogger.on_step_end_dict
         (LogDict (Some 4) (Some [[1%float; 2%float]; [3%float]]) None
            (Some 0%float) (Some [nan; 1%float])) samples.busy)
    = inl (MissingKey "reward") ∧
  TrainEpisodeLogger.observations
    (post (TrainEpisodeLogger.on_step_end_dict
             (LogDict (Some 4) (Some [[1%float; 2%float]; [3%float]]) None
                (Some 0%float) (Some [nan; 1%float])) samples.busy)) !! 4
    = Some [[1%float; 2%float; 3%float]; [1%float; 2%float; 3%float]] ∧
  TrainEpisodeLogger.rewards
    (post (TrainEpisodeLogger.on_step_end_dict
             (LogDict (Some 4) (Some [[1%float; 2%float]; [3%float]]) None
                (Some 0%float) (Some [nan; 1%float])) samples.busy)) !! 4
    = Some [1%float].
Proof.
  assert (H : EpisodeCalls.reachable samples.busy) by (by exists samples.busy_calls).
  split; [exact H|].
  destruct (step_end_all_or_nothing samples.busy
              (demo.step 7 1%float 0%float nan 1%float) H) as (Hp & Hraise & _).
  split; [exact Hp|]. split; [apply Hraise; vm_compute; reflexivity|].
  destruct (step_end_all_or_nothing samples.busy
              (demo.step 4 1%float 0%float nan 1%float) H) as (_ & _ & _ & _ & Hdict).
  assert (E : TrainEpisodeLogger.on_step_end_dict
                (LogDict (Some 4) (Some [[1%float; 2%float]; [3%float]]) None
                   (Some 0%float) (Some [nan; 1%float])) samples.busy =
              Reply (inl (MissingKey "reward"))
                (TrainEpisodeLogger.set_observations
                   <[4 := [[1%float; 2%float; 3%float]]
                          ++ [concat [[1%float; 2%float]; [3%float]]]]> samples.busy) []).
  { apply (Hdict [[1%float; 2%float; 3%float]] (Some 0%float) (Some [nan; 1%float]));
      [discriminate|vm_compute; reflexivity]. }
  rewrite E. repeat split; vm_compute; reflexivity.
Defined.

Lemma episode_end_unopened_episode_witness :
  TrainEpisodeLogger.started demo.trained ∧
  Forall (λ o, TrainEpisodeLogger.raised o = None)
    (TrainEpisodeLogger.run
       (TrainEpisodeLogger.episode_calls 4 10%float 12%float demo.three_steps)
       demo.trained).1 ∧
  TrainEpisodeLogger.open_after 4
    (TrainEpisodeLogger.episode_calls 4 10%float 12%float demo.three_steps) = false ∧
  TrainEpisodeLogger.on_episode_end 13%float 4
    (TrainEpisodeLogger.run
       (TrainEpisodeLogger.episode_calls 4 10%float 12%float demo.three_steps)
       demo.trained).2 =
  Reply (inl (KeyError 4))
    (TrainEpisodeLogger.run
       (TrainEpisodeLogger.episode_calls 4 10%float 12%float demo.three_steps)
       demo.trained).2 [].
Proof.
  assert (H1 : TrainEpisodeLogger.started demo.trained).
  { right. by exists 0%float, ["loss"; "mae"], None, (Some 100). }
  assert (H2 : Forall (λ o, TrainEpisodeLogger.raised o = None)
    (TrainEpisodeLogger.run
       (TrainEpisodeLogger.episode_calls 4 10%float 12%float demo.three_steps)
       demo.trained).1) by (vm_compute; repeat constructor).
  assert (H3 : TrainEpisodeLogger.open_after 4
    (TrainEpisodeLogger.episode_calls 4 10%float 12%float demo.three_steps) = false)
    by reflexivity.
  split; [exact H1|]. split; [exact H2|]. split; [exact H3|].
  exact (episode_end_unopened_episode demo.trained _ 13%float 4 H1 H2 H3).
Defined.

Lemma episode_records_its_steps_witness :
  Forall (λ l, log_episode l = 4) demo.three_steps ∧
  Forall (λ l, log_observation l ≠ []) demo.three_steps ∧
  TrainEpisodeLogger.view 4 demo.recorded =
  TrainEpisodeLogger.recorded_buffers 10%float demo.three_steps.
Proof.
  assert (H1 : Forall (λ l, log_episode l = 4) demo.three_steps)
    by (repeat constructor).
  assert (H2 : Forall (λ l, log_observation l ≠ []) demo.three_steps)
    by (repeat constructor; discriminate).
  split; [exact H1|]. split; [exact H2|].
  exact (proj2 (episode_records_its_steps demo.trained 4 10%float demo.three_steps
                  H1 H2)).
Defined.

Lemma progress_within_target_witness :
  0 < 3 ∧
  IntervalCalls.reachable 3 samples.window3 ∧
  TrainIntervalLogger.interval samples.window3 = 3 ∧
  TrainIntervalLogger.target (TrainIntervalLogger.progbar samples.window3) = 3 ∧
  Forall (λ position,
            1 ≤ position
            ≤ TrainIntervalLogger.target (TrainIntervalLogger.progbar samples.window3))
    (IntervalCalls.positions (TrainIntervalLogger.progbar samples.window3)) ∧
  0 ≤ TrainIntervalLogger.steps samples.window3.
Proof.
  assert (H1 : 0 < 3) by lia.
  assert (H2 : IntervalCalls.reachable 3 samples.window3)
    by (by exists 0%float, samples.window3_calls).
  split; [exact H1|]. split; [exact H2|].
  exact (progress_within_target 3 samples.window3 H1 H2).
Defined.

Lemma window_buffer_bounded_witness :
  0 < 10 ∧
  IntervalCalls.started 10 demo.window10 ∧
  Z.of_nat (length (TrainIntervalLogger.metrics
                      (IntervalCalls.loop samples.twelve_steps demo.window10))) ≤ 10 ∧
  IntervalCalls.positions
    (TrainIntervalLogger.progbar (IntervalCalls.loop samples.twelve_steps demo.window10))
  = map Z.of_nat
      (seq 1 (length (TrainIntervalLogger.metrics
                        (IntervalCalls.loop samples.twelve_steps demo.window10)))) ∧
  0 ≤ TrainIntervalLogger.steps (IntervalCalls.loop samples.twelve_steps demo.window10).
Proof.
  assert (H1 : 0 < 10) by lia.
  assert (H2 : IntervalCalls.started 10 demo.window10).
  { exists 0%float. right. by exists 0%float, ["loss"; "mae"], None, (Some 100). }
  split; [exact H1|]. split; [exact H2|].
  exact (window_buffer_bounded 10 demo.window10 samples.twelve_steps H1 H2).
Defined.

Lemma zero_interval_raises_witness :
  TrainIntervalLogger.interval (TrainIntervalLogger.init 0%float 0) = 0 ∧
  TrainIntervalLogger.on_step_begin 1%float (TrainIntervalLogger.init 0%float 0) =
  Reply (inl ZeroDivisionError) (TrainIntervalLogger.init 0%float 0) [].
Proof.
  split; [reflexivity|].
  exact (proj1 (zero_interval_raises 1%float (demo.step 0 1%float 0%float nan 1%float)
                  (TrainIntervalLogger.init 0%float 0) eq_refl)).
Defined.

Lemma step_end_without_nan_witness :
  existsb np.isnan (log_metrics (demo.step 0 7%float 0%float 3%float 4%float)) = false ∧
  TrainIntervalLogger.metrics_names samples.too_wide = Some ["loss"; "mae"] ∧
  0 < TrainIntervalLogger.interval samples.too_wide ∧
  TrainIntervalLogger.metrics
    (post (TrainIntervalLogger.on_step_end
             (demo.step 0 7%float 0%float 3%float 4%float) samples.too_wide)) =
  [[1%float; 2%float; 3%float]; [3%float; 4%float]].
Proof.
  assert (H1 : existsb np.isnan
                 (log_metrics (demo.step 0 7%float 0%float 3%float 4%float)) = false)
    by reflexivity.
  assert (H2 : TrainIntervalLogger.metrics_names samples.too_wide
               = Some ["loss"; "mae"]) by (vm_compute; reflexivity).
  assert (H3 : 0 < TrainIntervalLogger.interval samples.too_wide)
    by (vm_compute; reflexivity).
  split; [exact H1|]. split; [exact H2|]. split; [exact H3|].
  rewrite (step_end_without_nan _ samples.too_wide _ H1 H2 H3).
  vm_compute. reflexivity.
Defined.

Lemma step_end_width_mismatch_witness :
  np.shape2 (TrainIntervalLogger.metrics samples.too_wide) = Some (1%nat, 3%nat) ∧
  TrainIntervalLogger.metrics_names samples.too_wide = Some ["loss"; "mae"] ∧
  length ["loss"; "mae"] ≠ 3%nat ∧
  existsb np.isnan (log_metrics (demo.step 0 7%float 0%float nan 4%float)) = true ∧
  TrainIntervalLogger.on_step_end (demo.step 0 7%float 0%float nan 4%float)
    samples.too_wide =
  Reply (inl AssertionError) samples.too_wide [].
Proof.
  assert (H1 : np.shape2 (TrainIntervalLogger.metrics samples.too_wide)
               = Some (1%nat, 3%nat)) by (vm_compute; reflexivity).
  assert (H2 : TrainIntervalLogger.metrics_names samples.too_wide
               = Some ["loss"; "mae"]) by (vm_compute; reflexivity).
  assert (H3 : length ["loss"; "mae"] ≠ 3%nat) by (simpl; lia).
  assert (H4 : existsb np.isnan
                 (log_metrics (demo.step 0 7%float 0%float nan 4%float)) = true)
    by reflexivity.
  split; [exact H1|]. split; [exact H2|]. split; [exact H3|]. split; [exact H4|].
  exact (step_end_width_mismatch _ samples.too_wide 1%nat 3%nat _ H1 H2 H3 H4).
Defined.

Lemma step_end_nan_in_empty_window_witness :
  TrainIntervalLogger.metrics (TrainIntervalLogger.init 0%float 10) = [] ∧
  existsb np.isnan (log_metrics (demo.step 0 7%float 0%float nan 4%float)) = true ∧
  0 < TrainIntervalLogger.interval (TrainIntervalLogger.init 0%float 10) ∧
  TrainIntervalLogger.updates
    (TrainIntervalLogger.progbar
       (post (TrainIntervalLogger.on_step_end
                (demo.step 0 7%float 0%float nan 4%float)
                (TrainIntervalLogger.init 0%float 10)))) =
  [(1, [("reward", 7%float)])].
Proof.
  assert (H1 : TrainIntervalLogger.metrics (TrainIntervalLogger.init 0%float 10) = [])
    by reflexivity.
  assert (H2 : existsb np.isnan
                 (log_metrics (demo.step 0 7%float 0%float nan 4%float)) = true)
    by reflexivity.
  assert (H3 : 0 < TrainIntervalLogger.interval (TrainIntervalLogger.init 0%float 10))
    by (vm_compute; reflexivity).
  split; [exact H1|]. split; [exact H2|]. split; [exact H3|].
  rewrite (step_end_nan_in_empty_window _ (TrainIntervalLogger.init 0%float 10)
             H1 H2 H3).
  vm_compute. reflexivity.
Defined.

Lemma dispatch_stops_at_exception_witness :
  CallbackList.callbacks samples.with_failing !! 1%nat = Some samples.failing ∧
  CallbackList.on_event CallbackList.episode_begin samples.with_failing 7 () [] =
  CallbackList.Outcome (Some (OtherError "boom")) ["keras: epoch begin"; "failing"]
    [CallbackList.Call 0 "on_epoch_begin" 7 ();
     CallbackList.Call 1 "on_episode_begin" 7 ()].
Proof.
  assert (H1 : CallbackList.callbacks samples.with_failing !! 1%nat
               = Some samples.failing) by reflexivity.
  split; [exact H1|].
  rewrite (dispatch_stops_at_exception CallbackList.episode_begin samples.with_failing
             7 () [] 1 samples.failing
             (λ _ _ w, (Some (OtherError "boom"), w ++ ["failing"]))
             (OtherError "boom") ["keras: epoch begin"; "failing"] H1).
  - vm_compute. reflexivity.
  - vm_compute. reflexivity.
  - vm_compute. reflexivity.
  - vm_compute. reflexivity.
Defined.

Lemma keras_methods_shadowed_witness :
  Forall (λ cb, ∃ overrides inherited,
            cb = Callback.subclass overrides (Callback.attributes inherited) ∧
            overrides !! CallbackList.new_name CallbackList.episode_end = None)
    [samples.keras_style] ∧
  CallbackList.on_event CallbackList.episode_end
    {| CallbackList.callbacks := [samples.keras_style] |} 7 () [] =
  CallbackList.Outcome None [] [CallbackList.Call 0 "on_episode_end" 7 ()].
Proof.
  assert (H : Forall (λ cb, ∃ overrides inherited,
            cb = Callback.subclass overrides (Callback.attributes inherited) ∧
            overrides !! CallbackList.new_name CallbackList.episode_end = None)
    [samples.keras_style]).
  { constructor; [|constructor].
    exists samples.keras_style_overrides, demo.keras_only. split; reflexivity. }
  split; [exact H|].
  exact (keras_methods_shadowed CallbackList.episode_end
           {| CallbackList.callbacks := [samples.keras_style] |} 7 () [] H).
Defined.

End MoreSamples.
